(** * Drawing-board room server: room lifecycle and round state machine

    A shallow embedding of [backend/main.py] (the FastAPI handlers and
    their helpers) together with the properties of the room life cycle:
    membership, phase transitions, submissions, lazy timeout and judgment.

    Modelling conventions
    - Python [str] is [string]; Python [int] is [Z]; [len] is [length].
    - A [datetime] is the number of microseconds since the epoch (the
      resolution of [datetime]), so [(now - start).total_seconds() >= d]
      for an integer [d] is [d * 1000000 <= now - start]: the quotient by
      [10**6] is correctly rounded, rounding is monotone and [d] is itself
      a float for every duration the server uses.
    - A [Room] is a mutable object.  Objects live in a heap (a list indexed
      by object identity); [rooms_db] maps a room code to the identity of
      its room, and a queued background task holds the identity of the room
      it was given.  Deleting a room from [rooms_db] leaves the object in
      the heap, where a queued task can still write to it.
    - What the handlers draw from their environment is an explicit
      argument: the [uuid4] of a new player, the tokens of
      [secrets.token_urlsafe], the draw of [random.choice], the clock, and
      the dictionary returned by [call_gemini_judge].
    - [print] is not modelled. *)

From Stdlib Require Import ZArith Ascii String.
From stdpp Require Import base option list strings gmap.

Local Open Scope string_scope.
Local Open Scope list_scope.

(** ** Constants and game configuration *)

Definition MAX_PLAYERS_PER_ROOM : Z := 6.
Definition MIN_PLAYERS_TO_START : Z := 2.
Definition ROOM_CODE_LENGTH : nat := 6.
Definition ROUND_DURATION_SECONDS : Z := 100.
Definition PREDEFINED_TOPICS : list string :=
  [ "Apple"; "Banana"; "Car"; "Dog"; "Elephant"; "Flower"; "Guitar"; "House";
    "Ice Cream"; "Jacket"; "Kite"; "Lion"; "Moon"; "Ninja"; "Octopus"; "Pizza";
    "Queen"; "Robot"; "Sun"; "Tree"; "Umbrella"; "Volcano"; "Watch"; "Xylophone";
    "Yacht"; "Zebra"; "Book"; "Chair"; "Cloud"; "Dragon"; "Fish"; "Ghost" ].

(** ** Models and enums *)

Module Player.
Record t := mk { id : string; name : string }.
End Player.

Inductive GamePhase := LOBBY | DRAWING | ROUND_TRANSITION | GAME_OVER.

#[global] Instance GamePhase_eq_dec : EqDecision GamePhase.
Proof. solve_decision. Defined.

Module SubmittedDrawing.
Record t := mk {
  drawer_id : string;
  drawer_name : string;
  topic : string;
  image_b64 : string
}.
End SubmittedDrawing.

Module RoomCreate.
Record t := mk { name : option string; host_name : string }.
End RoomCreate.

Module RoomJoin.
Record t := mk { player_name : string }.
End RoomJoin.

Module PlayerIdBody.
Record t := mk { player_id : string }.
End PlayerIdBody.

Module SubmitDrawingRequest.
Record t := mk { player_id : string; image_b64 : string }.
End SubmitDrawingRequest.

(** The dictionary stored in [judgment_result]; it always has exactly the
    keys [summary], [winner_id] and [winner_name]. *)
Module Judgment.
Record t := mk { summary : string; winner_id : string; winner_name : string }.
End Judgment.

(** The dictionary returned by [call_gemini_judge]: each of its return
    statements builds the keys [summary] and [winner_name]. *)
Module GeminiResult.
Record t := mk { summary : string; winner_name : string }.
End GeminiResult.

Module Room.
Record t := mk {
  name : option string;
  code : string;
  host_id : string;
  players : list Player.t;
  max_players : Z;
  game_phase : GamePhase;
  current_topic : option string;
  round_start_time : option Z;
  round_duration_seconds : Z;
  submitted_drawings : list SubmittedDrawing.t;
  judgment_result : option Judgment.t
}.

(** Attribute assignments [room.f = v]. *)
Definition set_host_id (v : string) (r : t) : t :=
  mk (name r) (code r) v (players r) (max_players r) (game_phase r)
     (current_topic r) (round_start_time r) (round_duration_seconds r)
     (submitted_drawings r) (judgment_result r).
Definition set_players (v : list Player.t) (r : t) : t :=
  mk (name r) (code r) (host_id r) v (max_players r) (game_phase r)
     (current_topic r) (round_start_time r) (round_duration_seconds r)
     (submitted_drawings r) (judgment_result r).
Definition set_game_phase (v : GamePhase) (r : t) : t :=
  mk (name r) (code r) (host_id r) (players r) (max_players r) v
     (current_topic r) (round_start_time r) (round_duration_seconds r)
     (submitted_drawings r) (judgment_result r).
Definition set_current_topic (v : option string) (r : t) : t :=
  mk (name r) (code r) (host_id r) (players r) (max_players r) (game_phase r)
     v (round_start_time r) (round_duration_seconds r)
     (submitted_drawings r) (judgment_result r).
Definition set_round_start_time (v : option Z) (r : t) : t :=
  mk (name r) (code r) (host_id r) (players r) (max_players r) (game_phase r)
     (current_topic r) v (round_duration_seconds r)
     (submitted_drawings r) (judgment_result r).
Definition set_submitted_drawings (v : list SubmittedDrawing.t) (r : t) : t :=
  mk (name r) (code r) (host_id r) (players r) (max_players r) (game_phase r)
     (current_topic r) (round_start_time r) (round_duration_seconds r)
     v (judgment_result r).
Definition set_judgment_result (v : option Judgment.t) (r : t) : t :=
  mk (name r) (code r) (host_id r) (players r) (max_players r) (game_phase r)
     (current_topic r) (round_start_time r) (round_duration_seconds r)
     (submitted_drawings r) v.
End Room.

(** ** Outcome of a handler *)

Record HTTPException := mkHTTPException { status_code : Z; detail : string }.

(** A handler either returns the room, which FastAPI serialises when the
    handler returns, or raises an [HTTPException]. *)
Inductive Outcome :=
| Return (room : Room.t)
| Raise (e : HTTPException).

Definition HTTP_200_OK : Z := 200.
Definition HTTP_400_BAD_REQUEST : Z := 400.
Definition HTTP_403_FORBIDDEN : Z := 403.
Definition HTTP_404_NOT_FOUND : Z := 404.
Definition HTTP_500_INTERNAL_SERVER_ERROR : Z := 500.

(** ** Python library functions used by the handlers *)

(** [str.upper] on ASCII text. *)
Definition upper_ascii (c : ascii) : ascii :=
  let n := nat_of_ascii c in
  if (97 <=? n)%nat && (n <=? 122)%nat then ascii_of_nat (n - 32) else c.

Fixpoint upper (s : string) : string :=
  match s with
  | EmptyString => EmptyString
  | String c s' => String (upper_ascii c) (upper s')
  end.

(** [s.replace(a, b)] for one-character [a] and [b]. *)
Fixpoint replace (a b : ascii) (s : string) : string :=
  match s with
  | EmptyString => EmptyString
  | String c s' => String (if Ascii.eqb c a then b else c) (replace a b s')
  end.

(** The slice [s[:n]]. *)
Fixpoint slice_to (n : nat) (s : string) : string :=
  match n, s with
  | S n', String c s' => String c (slice_to n' s')
  | _, _ => EmptyString
  end.

(** [x or d] for an optional string [x]: [None] and the empty string are
    both falsy. *)
Definition str_or (x : option string) (d : string) : string :=
  match x with
  | Some s => if String.eqb s EmptyString then d else s
  | None => d
  end.

(** Values that meet in the comparison [player_id_to_leave in
    room.submitted_drawings]: a [str] on the left, [SubmittedDrawing]
    models in the list. *)
Inductive pyval :=
| VStr (s : string)
| VDrawing (d : SubmittedDrawing.t).

Definition SubmittedDrawing_eqb (a b : SubmittedDrawing.t) : bool :=
  String.eqb (SubmittedDrawing.drawer_id a) (SubmittedDrawing.drawer_id b)
  && String.eqb (SubmittedDrawing.drawer_name a) (SubmittedDrawing.drawer_name b)
  && String.eqb (SubmittedDrawing.topic a) (SubmittedDrawing.topic b)
  && String.eqb (SubmittedDrawing.image_b64 a) (SubmittedDrawing.image_b64 b).

(** Python [==]: a model compares equal only to a model with the same
    fields; a model and a [str] are never equal. *)
Definition py_eq (x y : pyval) : bool :=
  match x, y with
  | VStr a, VStr b => String.eqb a b
  | VDrawing a, VDrawing b => SubmittedDrawing_eqb a b
  | _, _ => false
  end.

(** Python [x in l] on a list. *)
Definition py_in (x : pyval) (l : list pyval) : bool :=
  existsb (fun e => py_eq e x) l.

(** ** The in-memory database *)

Record State := mkState {
  heap : list Room.t;
  rooms_db : gmap string nat;
  background_tasks : list nat
}.

Definition init : State := mkState [] ∅ [].

(** [rooms_db[code]] followed by the dereference; [None] is
    [code not in rooms_db].  A reference held by [rooms_db] always points
    into the heap (see [registry_ok]), so the inner [None] does not occur
    in a run of the server. *)
Definition fetch (st : State) (code : string) : option (nat * Room.t) :=
  match rooms_db st !! code with
  | Some l =>
      match heap st !! l with
      | Some room => Some (l, room)
      | None => None
      end
  | None => None
  end.

(** The mutations of the object at [l], written back to the heap. *)
Definition store (l : nat) (room : Room.t) (st : State) : State :=
  mkState (<[l := room]> (heap st)) (rooms_db st) (background_tasks st).

Fixpoint generate_room_code (tokens : list string) (db : gmap string nat)
  : option string :=
  match tokens with
  | [] => None
  | tok :: rest =>
      let code :=
        replace "-" "B" (replace "_" "A" (upper (slice_to ROOM_CODE_LENGTH tok))) in
      match db !! code with
      | None => Some code
      | Some _ => generate_room_code rest db
      end
  end.

Definition get_player_name_by_id (room : Room.t) (player_id : string)
  : option string :=
  Player.name <$> find (fun player => String.eqb (Player.id player) player_id)
                       (Room.players room).

(** ** API endpoints *)

Definition not_found : Outcome :=
  Raise (mkHTTPException HTTP_404_NOT_FOUND "Room not found").

(** [tokens] are the successive results of [secrets.token_urlsafe]; the
    result is [None] when the [while True] loop of [generate_room_code] has
    not returned within them. [uuid] is the id given to the host. *)
Definition create_new_room (st : State) (tokens : list string) (uuid : string)
    (room_data : RoomCreate.t) : option (State * Outcome) :=
  match generate_room_code tokens (rooms_db st) with
  | None => None
  | Some room_code =>
      let host_player := Player.mk uuid (RoomCreate.host_name room_data) in
      let new_room :=
        Room.mk (Some (str_or (RoomCreate.name room_data) (String.append "Room " room_code)))
                room_code (Player.id host_player) [host_player]
                MAX_PLAYERS_PER_ROOM LOBBY None None ROUND_DURATION_SECONDS
                [] None in
      let l := length (heap st) in
      Some (mkState (heap st ++ [new_room]) (<[room_code := l]> (rooms_db st))
                    (background_tasks st),
            Return new_room)
  end.

Definition join_existing_room (st : State) (room_code : string) (uuid : string)
    (join_data : RoomJoin.t) : State * Outcome :=
  let room_code := upper room_code in
  match fetch st room_code with
  | None => (st, not_found)
  | Some (l, room) =>
      if bool_decide (Room.game_phase room ≠ LOBBY)
         && bool_decide (Room.game_phase room ≠ GAME_OVER)
      then (st, Raise (mkHTTPException HTTP_403_FORBIDDEN
                         "Cannot join an active game."))
      else if (Room.max_players room <=? Z.of_nat (length (Room.players room)))%Z
      then (st, Raise (mkHTTPException HTTP_403_FORBIDDEN "Room is full"))
      else
        let new_player := Player.mk uuid (RoomJoin.player_name join_data) in
        let room := Room.set_players (Room.players room ++ [new_player]) room in
        (store l room st, Return room)
  end.

(** [next(i for i, d in enumerate(drawings) if d.drawer_id == player_id)];
    [None] is the [StopIteration] of an exhausted generator. *)
Fixpoint first_index_of (player_id : string) (drawings : list SubmittedDrawing.t)
  : option nat :=
  match drawings with
  | [] => None
  | d :: rest =>
      if String.eqb (SubmittedDrawing.drawer_id d) player_id then Some 0
      else S <$> first_index_of player_id rest
  end.

Definition active_phase (p : GamePhase) : bool :=
  bool_decide (p ≠ LOBBY) && bool_decide (p ≠ GAME_OVER).

(** The tail of [leave_room], from the host hand-over on. *)
Definition leave_room_finish (room : Room.t) (player_id_to_leave : string)
  : Room.t :=
  let room :=
    if String.eqb (Room.host_id room) player_id_to_leave
    then match Room.players room with
         | p :: _ => Room.set_host_id (Player.id p) room
         | [] => room
         end
    else room in
  if active_phase (Room.game_phase room)
     && (Z.of_nat (length (Room.players room)) <? MIN_PLAYERS_TO_START)%Z
  then Room.set_current_topic None (Room.set_game_phase GAME_OVER room)
  else room.

(** The [StopIteration] of [next] is not a [ValueError]: it would leave the
    handler and FastAPI would answer 500. *)
Definition leave_room (st : State) (room_code : string) (body : PlayerIdBody.t)
  : State * Outcome :=
  let room_code_upper := upper room_code in
  let player_id_to_leave := PlayerIdBody.player_id body in
  match fetch st room_code_upper with
  | None => (st, not_found)
  | Some (l, room) =>
      let player_left_instance :=
        find (fun p => String.eqb (Player.id p) player_id_to_leave)
             (Room.players room) in
      match player_left_instance with
      | None => (st, Return room)
      | Some _ =>
          let room :=
            Room.set_players
              (List.filter (fun p => negb (String.eqb (Player.id p) player_id_to_leave))
                           (Room.players room)) room in
          match Room.players room with
          | [] =>
              (mkState (<[l := room]> (heap st))
                       (delete room_code_upper (rooms_db st))
                       (background_tasks st),
               Raise (mkHTTPException HTTP_200_OK
                        "Room closed as last player left."))
          | _ :: _ =>
              if py_in (VStr player_id_to_leave)
                       (VDrawing <$> Room.submitted_drawings room)
              then
                match first_index_of player_id_to_leave
                        (Room.submitted_drawings room) with
                | Some leaving_player_draw_index =>
                    let room :=
                      Room.set_submitted_drawings
                        (delete leaving_player_draw_index
                                (Room.submitted_drawings room)) room in
                    let room := leave_room_finish room player_id_to_leave in
                    (store l room st, Return room)
                | None =>
                    (store l room st,
                     Raise (mkHTTPException HTTP_500_INTERNAL_SERVER_ERROR
                              "Internal Server Error"))
                end
              else
                let room := leave_room_finish room player_id_to_leave in
                (store l room st, Return room)
          end
      end
  end.

(** ** Game management helpers *)

(** [random.choice(PREDEFINED_TOPICS)], with [rnd] the draw. *)
Definition _select_new_topic (room : Room.t) (rnd : nat) : string :=
  nth (rnd mod length PREDEFINED_TOPICS) PREDEFINED_TOPICS EmptyString.

Definition _reset_game_state_fields (room : Room.t) (new_phase : GamePhase)
  : Room.t :=
  let room := Room.set_game_phase new_phase room in
  let room := Room.set_current_topic None room in
  let room := Room.set_round_start_time None room in
  Room.set_submitted_drawings [] room.

(** ** Game flow endpoints *)

Definition start_game (st : State) (room_code : string) (body : PlayerIdBody.t)
    (rnd : nat) (now : Z) : State * Outcome :=
  let room_code_upper := upper room_code in
  let player_id := PlayerIdBody.player_id body in
  match fetch st room_code_upper with
  | None => (st, not_found)
  | Some (l, room) =>
      if negb (String.eqb (Room.host_id room) player_id)
      then (st, Raise (mkHTTPException HTTP_403_FORBIDDEN
                         "Only the host can start the game."))
      else if bool_decide (Room.game_phase room ≠ LOBBY)
      then (st, Raise (mkHTTPException HTTP_400_BAD_REQUEST
                         "Game can only be started from the lobby."))
      else if (Z.of_nat (length (Room.players room)) <? MIN_PLAYERS_TO_START)%Z
      then (st, Raise (mkHTTPException HTTP_400_BAD_REQUEST
                         "Need at least 2 players to start."))
      else
        let room := _reset_game_state_fields room DRAWING in
        let room := Room.set_current_topic (Some (_select_new_topic room rnd)) room in
        let room := Room.set_round_start_time (Some now) room in
        (store l room st, Return room)
  end.

Definition submit_drawing_and_advance_turn (st : State) (room_code : string)
    (request_data : SubmitDrawingRequest.t) : State * Outcome :=
  let room_code_upper := upper room_code in
  match fetch st room_code_upper with
  | None => (st, not_found)
  | Some (l, room) =>
      if bool_decide (Room.game_phase room ≠ DRAWING)
      then (st, Raise (mkHTTPException HTTP_400_BAD_REQUEST
                         "Not in drawing phase."))
      else if existsb (fun d => String.eqb (SubmittedDrawing.drawer_id d)
                                  (SubmitDrawingRequest.player_id request_data))
                      (Room.submitted_drawings room)
      then (st, Raise (mkHTTPException HTTP_400_BAD_REQUEST
                         "You have already submitted your drawing."))
      else
        let drawer_name :=
          str_or (get_player_name_by_id room
                    (SubmitDrawingRequest.player_id request_data))
                 "Unknown Drawer" in
        let drawing :=
          SubmittedDrawing.mk (SubmitDrawingRequest.player_id request_data)
                              drawer_name
                              (str_or (Room.current_topic room) "No Topic")
                              (SubmitDrawingRequest.image_b64 request_data) in
        let room :=
          Room.set_submitted_drawings (Room.submitted_drawings room ++ [drawing])
                                      room in
        let room :=
          if (length (Room.players room) <=? length (Room.submitted_drawings room))%nat
          then Room.set_game_phase GAME_OVER room
          else room in
        (store l room st, Return room)
  end.

Definition play_again (st : State) (room_code : string) (body : PlayerIdBody.t)
    (rnd : nat) (now : Z) : State * Outcome :=
  let room_code_upper := upper room_code in
  let player_id := PlayerIdBody.player_id body in
  match fetch st room_code_upper with
  | None => (st, not_found)
  | Some (l, room) =>
      if negb (String.eqb (Room.host_id room) player_id)
      then (st, Raise (mkHTTPException HTTP_403_FORBIDDEN
                         "Only the host can restart the game."))
      else if bool_decide (Room.game_phase room ≠ GAME_OVER)
      then (st, Raise (mkHTTPException HTTP_400_BAD_REQUEST
                         "Game can only be restarted when it's over."))
      else if (Z.of_nat (length (Room.players room)) <? MIN_PLAYERS_TO_START)%Z
      then
        let room := _reset_game_state_fields room LOBBY in
        (store l room st,
         Raise (mkHTTPException HTTP_400_BAD_REQUEST
                  "Need at least 2 players. Returning to Lobby."))
      else
        let room := _reset_game_state_fields room DRAWING in
        let room := Room.set_current_topic (Some (_select_new_topic room rnd)) room in
        let room := Room.set_round_start_time (Some now) room in
        (store l room st, Return room)
  end.

(** ** Judgment *)

(** [result] is what [call_gemini_judge(submissions)] returns; the call is
    not made when there is nothing to judge. *)
Definition run_gemini_judgment (room : Room.t) (result : GeminiResult.t)
  : Room.t :=
  match Room.submitted_drawings room with
  | [] =>
      Room.set_judgment_result
        (Some (Judgment.mk "No drawings to judge." EmptyString EmptyString)) room
  | _ :: _ =>
      let winner_id :=
        match find (fun d => String.eqb (SubmittedDrawing.drawer_name d)
                               (GeminiResult.winner_name result))
                   (Room.submitted_drawings room) with
        | Some d => SubmittedDrawing.drawer_id d
        | None => EmptyString
        end in
      Room.set_judgment_result
        (Some (Judgment.mk (GeminiResult.summary result) winner_id
                           (GeminiResult.winner_name result))) room
  end.

(** The handler queues [run_gemini_judgment] on the room object and
    returns; the task runs after the response has been sent. *)
Definition judge_room (st : State) (room_code : string) : State * Outcome :=
  let room_code_upper := upper room_code in
  match fetch st room_code_upper with
  | None => (st, not_found)
  | Some (l, room) =>
      if bool_decide (Room.game_phase room ≠ GAME_OVER)
      then (st, Raise (mkHTTPException HTTP_400_BAD_REQUEST
                         "Judgment only after game over."))
      else
        (mkState (heap st) (rooms_db st) (background_tasks st ++ [l]),
         Return room)
  end.

(** The [i]-th queued task runs: it reads the submissions of its room
    object, obtains [result] from the judge and assigns [judgment_result].
    Tasks run after the response of the request that queued them, in any
    order with respect to later requests; one run is one step here. *)
Definition run_background_task (st : State) (i : nat) (result : GeminiResult.t)
  : State :=
  match background_tasks st !! i with
  | None => st
  | Some l =>
      let st' := mkState (heap st) (rooms_db st) (delete i (background_tasks st)) in
      match heap st !! l with
      | Some room => store l (run_gemini_judgment room result) st'
      | None => st'
      end
  end.

(** [elapsed >= room.round_duration_seconds], on microsecond stamps. *)
Definition elapsed_ge (now start : Z) (seconds : Z) : bool :=
  (seconds * 1000000 <=? now - start)%Z.

Definition get_room_details (st : State) (room_code : string) (now : Z)
    (result : GeminiResult.t) : State * Outcome :=
  let room_code := upper room_code in
  match fetch st room_code with
  | None => (st, not_found)
  | Some (l, room) =>
      let room :=
        match Room.round_start_time room with
        | Some start =>
            if bool_decide (Room.game_phase room = DRAWING)
               && elapsed_ge now start (Room.round_duration_seconds room)
            then Room.set_game_phase GAME_OVER room
            else room
        | None => room
        end in
      let room :=
        if bool_decide (Room.game_phase room = GAME_OVER)
           && bool_decide (Room.judgment_result room = None)
        then run_gemini_judgment room result
        else room in
      (store l room st, Return room)
  end.

(** ** Runs of the server *)

Inductive Action :=
| Create (tokens : list string) (uuid : string) (room_data : RoomCreate.t)
| Join (room_code : string) (uuid : string) (join_data : RoomJoin.t)
| Leave (room_code : string) (body : PlayerIdBody.t)
| Start (room_code : string) (body : PlayerIdBody.t) (rnd : nat) (now : Z)
| Submit (room_code : string) (request_data : SubmitDrawingRequest.t)
| PlayAgain (room_code : string) (body : PlayerIdBody.t) (rnd : nat) (now : Z)
| Judge (room_code : string)
| Get (room_code : string) (now : Z) (result : GeminiResult.t)
| RunTask (i : nat) (result : GeminiResult.t).

(** One request handled to its end, or one background task run; the
    outcome is [None] where no response is produced. *)
Definition step (st : State) (a : Action) : State * option Outcome :=
  match a with
  | Create tokens uuid room_data =>
      match create_new_room st tokens uuid room_data with
      | Some (st', o) => (st', Some o)
      | None => (st, None)
      end
  | Join c uuid d => prod_map id Some (join_existing_room st c uuid d)
  | Leave c b => prod_map id Some (leave_room st c b)
  | Start c b rnd now => prod_map id Some (start_game st c b rnd now)
  | Submit c r => prod_map id Some (submit_drawing_and_advance_turn st c r)
  | PlayAgain c b rnd now => prod_map id Some (play_again st c b rnd now)
  | Judge c => prod_map id Some (judge_room st c)
  | Get c now g => prod_map id Some (get_room_details st c now g)
  | RunTask i g => (run_background_task st i g, None)
  end.

Definition run (st : State) (acts : list Action) : State :=
  fold_left (fun s a => fst (step s a)) acts st.

Definition reachable (st : State) : Prop :=
  ∃ acts, run init acts = st.

(** ** The judge's reply

    [call_gemini_judge] builds a prompt from the submissions, posts it and
    turns the reply into a summary and a winner name. The request is the
    environment's: what [requests.post], [raise_for_status] and
    [resp.json()] produce is an input here, and the prompt, which has no
    other use, is not modelled.

    Strings are sequences of bytes. [str.strip], [str.splitlines] and
    [str.startswith] are modelled for text whose white space and line
    boundaries are ASCII characters. *)

(** A value returned by [resp.json()]; an object is the list of its
    members, looked up by key. *)
#[local] Unset Elimination Schemes.
Inductive json :=
| JNull
| JBool (b : bool)
| JNumber (literal : string)
| JString (s : string)
| JList (items : list json)
| JDict (members : list (string * json)).
#[local] Set Elimination Schemes.

(** How the request ended: in one of the three [except] clauses, or with
    the parsed body. *)
Inductive http_outcome :=
| RequestFailed
| StructureError
| OtherError
| Parsed (parsed_response : json).

Fixpoint assoc (key : string) (members : list (string * json)) : option json :=
  match members with
  | [] => None
  | (k, v) :: rest => if String.eqb k key then Some v else assoc key rest
  end.

(** [isinstance(v, dict) and key in v], and then [v[key]]. *)
Definition member (v : json) (key : string) : option json :=
  match v with
  | JDict members => assoc key members
  | _ => None
  end.

(** The items of [for x in v]: the elements of a list, the characters of a
    string, the keys of an object; [None] is the [TypeError] for a value
    that is not iterable. *)
Definition py_iter (v : json) : option (list json) :=
  match v with
  | JList items => Some items
  | JString s =>
      Some ((fun c => JString (String c EmptyString)) <$> list_ascii_of_string s)
  | JDict members => Some ((fun kv => JString (fst kv)) <$> members)
  | JNull | JBool _ | JNumber _ => None
  end.

(** The innermost loop of the list branch: the [text] of every part that
    is an object with that key. *)
Definition texts_of_parts (parts : list json) : list json :=
  omap (fun part_item => member part_item "text") parts.

Definition texts_of_candidate (candidate : json) : option (list json) :=
  match member candidate "content" with
  | Some content =>
      match member content "parts" with
      | Some parts => texts_of_parts <$> py_iter parts
      | None => Some []
      end
  | None => Some []
  end.

Definition texts_of_chunk (chunk : json) : option (list json) :=
  match member chunk "candidates" with
  | Some candidates =>
      match py_iter candidates with
      | Some items => (fun texts => concat texts) <$> mapM texts_of_candidate items
      | None => None
      end
  | None => Some []
  end.

(** [EmptyString.join(texts)]; [None] is the [TypeError] for an item that
    is not a string. *)
Fixpoint join_texts (texts : list json) : option string :=
  match texts with
  | [] => Some EmptyString
  | JString s :: rest => String.append s <$> join_texts rest
  | _ :: _ => None
  end.

(** [gemini_text] after the dictionary branch: the [text] of the first part
    of the first candidate, of whatever type it is, or the initial empty
    string. *)
Definition first_text (parsed_response : json) : json :=
  match member parsed_response "candidates" with
  | Some (JList (JDict candidate :: _)) =>
      match assoc "content" candidate with
      | Some (JDict content) =>
          match assoc "parts" content with
          | Some (JList (part :: _)) =>
              match member part "text" with
              | Some text => text
              | None => JString EmptyString
              end
          | _ => JString EmptyString
          end
      | _ => JString EmptyString
      end
  | _ => JString EmptyString
  end.

(** White space of [str.strip]: tab to carriage return, the four
    separators and the space. *)
Definition is_space (c : ascii) : bool :=
  let n := nat_of_ascii c in
  ((9 <=? n)%nat && (n <=? 13)%nat) || ((28 <=? n)%nat && (n <=? 32)%nat).

(** Line boundaries of [str.splitlines]: line feed to carriage return and
    the file, group and record separators. *)
Definition is_line_boundary (c : ascii) : bool :=
  let n := nat_of_ascii c in
  ((10 <=? n)%nat && (n <=? 13)%nat) || ((28 <=? n)%nat && (n <=? 30)%nat).

Fixpoint lstrip (s : string) : string :=
  match s with
  | EmptyString => EmptyString
  | String c s' => if is_space c then lstrip s' else s
  end.

Fixpoint rstrip (s : string) : string :=
  match s with
  | EmptyString => EmptyString
  | String c s' =>
      match rstrip s' with
      | EmptyString => if is_space c then EmptyString else String c EmptyString
      | r => String c r
      end
  end.

Definition strip (s : string) : string := rstrip (lstrip s).

Definition newline : string := String "010" EmptyString.

(** [s.splitlines()], with [line] the part of the current line read so
    far: a carriage return followed by a line feed is one boundary, and
    text after the last boundary is a line only if it is not empty. *)
Fixpoint splitlines_from (line : string) (s : string) : list string :=
  match s with
  | EmptyString =>
      match line with
      | EmptyString => []
      | _ => [line]
      end
  | String c s' =>
      if Ascii.eqb c "013" then
        match s' with
        | String c' s'' =>
            if Ascii.eqb c' "010" then line :: splitlines_from EmptyString s''
            else line :: splitlines_from EmptyString s'
        | EmptyString => [line]
        end
      else if is_line_boundary c then line :: splitlines_from EmptyString s'
      else splitlines_from (line +:+ String c EmptyString) s'
  end.

Definition splitlines (s : string) : list string :=
  splitlines_from EmptyString s.

(** What follows the first [sep] in [s], if there is one. *)
Fixpoint after_first (sep : ascii) (s : string) : option string :=
  match s with
  | EmptyString => None
  | String c s' => if Ascii.eqb c sep then Some s' else after_first sep s'
  end.

(** [s.split(sep, 1)[-1]]. *)
Definition split_once_last (sep : ascii) (s : string) : string :=
  default s (after_first sep s).

(** One turn of the loop over the lines, on the pair of [summary] and
    [winner_name]. *)
Definition parse_line (acc : string * string) (line : string) : string * string :=
  let '(summary, winner_name) := acc in
  if String.prefix "Descriptions:" (strip line) then (EmptyString, winner_name)
  else if String.prefix "- " (strip line) then
    (summary +:+ line +:+ newline, winner_name)
  else if String.prefix "Winner:" (strip line) then
    (summary, strip (split_once_last ":" line))
  else if String.prefix "Reason:" (strip line) then
    (summary +:+ line +:+ newline, winner_name)
  else acc.

Definition parse_gemini_text (gemini_text : string) : GeminiResult.t :=
  let '(summary, winner_name) :=
    fold_left parse_line (splitlines gemini_text) (EmptyString, EmptyString) in
  GeminiResult.mk (strip summary) winner_name.

Definition could_not_connect : GeminiResult.t :=
  GeminiResult.mk "Could not connect to Gemini AI." EmptyString.

Definition could_not_understand : GeminiResult.t :=
  GeminiResult.mk "Error understanding Gemini AI's response structure."
                  EmptyString.

Definition could_not_judge : GeminiResult.t :=
  GeminiResult.mk "Could not get a judgment from Gemini AI." EmptyString.

(** A [TypeError] of the list branch ends in the second [except] clause; a
    [text] that is not a string makes [splitlines] fail with an
    [AttributeError], which ends in the last one. *)
Definition call_gemini_judge (reply : http_outcome) : GeminiResult.t :=
  match reply with
  | RequestFailed => could_not_connect
  | StructureError => could_not_understand
  | OtherError => could_not_judge
  | Parsed parsed_response =>
      match parsed_response with
      | JList chunks =>
          match mapM texts_of_chunk chunks ≫= (fun texts => join_texts (concat texts)) with
          | Some gemini_text => parse_gemini_text gemini_text
          | None => could_not_understand
          end
      | JDict _ =>
          match first_text parsed_response with
          | JString gemini_text => parse_gemini_text gemini_text
          | _ => could_not_judge
          end
      | _ => parse_gemini_text EmptyString
      end
  end.

(** * Vocabulary of the properties *)

(** ** The effect of one step on the store *)

(** The room a [create] builds. *)
Definition created (room : Room.t) : Prop :=
  ∃ nm code p,
    room = Room.mk nm code (Player.id p) [p] MAX_PLAYERS_PER_ROOM LOBBY
                   None None ROUND_DURATION_SECONDS [] None.

(** The drawing a successful submit appends. *)
Definition drawing_of (room : Room.t) (request_data : SubmitDrawingRequest.t)
  : SubmittedDrawing.t :=
  SubmittedDrawing.mk
    (SubmitDrawingRequest.player_id request_data)
    (str_or (get_player_name_by_id room
               (SubmitDrawingRequest.player_id request_data)) "Unknown Drawer")
    (str_or (Room.current_topic room) "No Topic")
    (SubmitDrawingRequest.image_b64 request_data).

Definition remaining (player_id : string) (players : list Player.t)
  : list Player.t :=
  List.filter (fun p => negb (String.eqb (Player.id p) player_id)) players.

(** The mutations a handler or a task applies to one room object that
    keeps at least one player. *)
Inductive room_step : Room.t → Room.t → Prop :=
| rs_refl r : room_step r r
| rs_trans r1 r2 r3 : room_step r1 r2 → room_step r2 r3 → room_step r1 r3
| rs_join r p :
    room_step r (Room.set_players (Room.players r ++ [p]) r)
| rs_leave r player_id :
    remaining player_id (Room.players r) ≠ [] →
    room_step r (leave_room_finish
                   (Room.set_players (remaining player_id (Room.players r)) r)
                   player_id)
| rs_round r topic now :
    room_step r (Room.set_round_start_time (Some now)
                   (Room.set_current_topic (Some topic)
                      (_reset_game_state_fields r DRAWING)))
| rs_lobby r :
    room_step r (_reset_game_state_fields r LOBBY)
| rs_submit r request_data :
    Room.game_phase r = DRAWING →
    existsb (fun d => String.eqb (SubmittedDrawing.drawer_id d)
                        (SubmitDrawingRequest.player_id request_data))
            (Room.submitted_drawings r) = false →
    room_step r (Room.set_submitted_drawings
                   (Room.submitted_drawings r ++ [drawing_of r request_data]) r)
| rs_game_over r :
    Room.game_phase r = DRAWING →
    room_step r (Room.set_game_phase GAME_OVER r)
| rs_judgment r result :
    room_step r (run_gemini_judgment r result).

(** The shape of the state after one step. *)
Inductive step_shape (st : State) : State → Prop :=
| shape_same : step_shape st st
| shape_store code l r r' :
    fetch st code = Some (l, r) → room_step r r' →
    step_shape st (store l r' st)
| shape_create code room :
    rooms_db st !! code = None → created room →
    step_shape st (mkState (heap st ++ [room])
                           (<[code := length (heap st)]> (rooms_db st))
                           (background_tasks st))
| shape_close code l r :
    fetch st code = Some (l, r) →
    step_shape st (mkState (<[l := Room.set_players [] r]> (heap st))
                           (delete code (rooms_db st))
                           (background_tasks st))
| shape_queue l :
    step_shape st (mkState (heap st) (rooms_db st) (background_tasks st ++ [l]))
| shape_task i l r result :
    heap st !! l = Some r →
    step_shape st (mkState (<[l := run_gemini_judgment r result]> (heap st))
                           (rooms_db st)
                           (delete i (background_tasks st)))
| shape_task_lost i :
    step_shape st (mkState (heap st) (rooms_db st)
                           (delete i (background_tasks st))).

(** ** Invariants *)

Definition host_is_member (r : Room.t) : Prop :=
  Room.host_id r ∈ Player.id <$> Room.players r.

(** Every registered room has players, the host among them; an object that
    is no longer registered has none; and no object is registered twice. *)
Definition registry_ok (st : State) : Prop :=
  (∀ code l, rooms_db st !! code = Some l →
     ∃ r, heap st !! l = Some r ∧ Room.players r ≠ [] ∧ host_is_member r) ∧
  (∀ l r, heap st !! l = Some r →
     Room.players r = [] ∨ ∃ code, rooms_db st !! code = Some l) ∧
  (∀ c1 c2 l, rooms_db st !! c1 = Some l → rooms_db st !! c2 = Some l → c1 = c2).

Definition topic_and_start_time_together (room : Room.t) : Prop :=
  is_Some (Room.current_topic room) ↔ is_Some (Room.round_start_time room).

(** Together, or the state [leave_room] produces when it ends a round for
    lack of players: game over, topic cleared, start time kept. *)
Definition topic_and_start_time_ok (room : Room.t) : Prop :=
  topic_and_start_time_together room ∨
  (Room.game_phase room = GAME_OVER ∧ Room.current_topic room = None ∧
   is_Some (Room.round_start_time room)).



(** ** Rejections *)

(** The error outcomes NotFound, Forbidden and BadRequest. *)
Definition rejection (e : HTTPException) : Prop :=
  status_code e = HTTP_404_NOT_FOUND ∨ status_code e = HTTP_403_FORBIDDEN ∨
  status_code e = HTTP_400_BAD_REQUEST.

Definition rejected_actions_change_nothing : Prop :=
  ∀ st a st' e,
    reachable st → step st a = (st', Some (Raise e)) → rejection e → st' = st.

Definition shortfall : HTTPException :=
  mkHTTPException HTTP_400_BAD_REQUEST
                  "Need at least 2 players. Returning to Lobby.".

(** ** Observations *)

Definition returned (o : Outcome) : option Room.t :=
  match o with
  | Return room => Some room
  | Raise _ => None
  end.

Definition judgment_of (st : State) (code : string) : option (option Judgment.t) :=
  (fun lr => Room.judgment_result (snd lr)) <$> fetch st code.

(** ** Concrete runs *)

Definition alice_id : string := "id-alice".
Definition bob_id : string := "id-bob".
Definition carol_id : string := "id-carol".

Definition mallory_id : string := "id-mallory".

Definition verdict_alice : GeminiResult.t :=
  GeminiResult.mk "- Alice: a dog, allegedly" "Alice".

(** What [call_gemini_judge] returns when the request fails. *)
Definition verdict_unavailable : GeminiResult.t :=
  GeminiResult.mk "Could not connect to Gemini AI." EmptyString.

(** Alice creates room ABCAB1, Bob joins, Alice starts the round. *)
Definition two_players_drawing : list Action :=
  [ Create ["abc_-1xyz"] alice_id (RoomCreate.mk (Some "Unnamed Room") "Alice");
    Join "abcab1" bob_id (RoomJoin.mk "Bob");
    Start "ABCAB1" (PlayerIdBody.mk alice_id) 3 1000000 ].

(** Alice has submitted; Bob has not. *)
Definition alice_submitted : list Action :=
  two_players_drawing ++ [ Submit "ABCAB1" (SubmitDrawingRequest.mk alice_id "aGk=") ].

(** Bob leaves the two-player round: one player is left, below the minimum. *)
Definition round_aborted : list Action :=
  alice_submitted ++ [ Leave "ABCAB1" (PlayerIdBody.mk bob_id) ].

(** Both players have submitted, and a [get] has judged the round. *)
Definition round_judged : list Action :=
  alice_submitted ++
  [ Submit "ABCAB1" (SubmitDrawingRequest.mk bob_id "Ym9i");
    Get "ABCAB1" 5000000 verdict_alice ].

(** Alice, Bob and Carol are drawing; only Bob has submitted. *)
Definition three_players_bob_submitted : list Action :=
  [ Create ["abc_-1xyz"] alice_id (RoomCreate.mk (Some "Unnamed Room") "Alice");
    Join "abcab1" bob_id (RoomJoin.mk "Bob");
    Join "abcab1" carol_id (RoomJoin.mk "Carol");
    Start "ABCAB1" (PlayerIdBody.mk alice_id) 3 1000000;
    Submit "ABCAB1" (SubmitDrawingRequest.mk bob_id "Ym9i") ].

(** ** Guarded effects of the handlers *)

(** What [generate_room_code] makes of one token. *)
Definition normalise (tok : string) : string :=
  replace "-" "B" (replace "_" "A" (upper (slice_to ROOM_CODE_LENGTH tok))).

(** A character that [str.upper] leaves alone and that is neither of the two
    separators of the URL-safe alphabet. *)
Definition code_char (c : ascii) : Prop :=
  upper_ascii c = c ∧ c ≠ "_"%char ∧ c ≠ "-"%char.

(** The room [create_new_room] builds for a code, a host id and a request. *)
Definition new_room (room_code uuid : string) (room_data : RoomCreate.t)
  : Room.t :=
  Room.mk (Some (str_or (RoomCreate.name room_data)
                        (String.append "Room " room_code)))
          room_code uuid [Player.mk uuid (RoomCreate.host_name room_data)]
          MAX_PLAYERS_PER_ROOM LOBBY None None ROUND_DURATION_SECONDS [] None.

(** The room after the three assignments that open a round in [start_game]
    and [play_again]. *)
Definition round_started (room : Room.t) (rnd : nat) (now : Z) : Room.t :=
  Room.set_round_start_time (Some now)
    (Room.set_current_topic
       (Some (_select_new_topic (_reset_game_state_fields room DRAWING) rnd))
       (_reset_game_state_fields room DRAWING)).

(** The room after a submit that passed both checks. *)
Definition submitted (room : Room.t) (request_data : SubmitDrawingRequest.t)
  : Room.t :=
  let room :=
    Room.set_submitted_drawings
      (Room.submitted_drawings room ++ [drawing_of room request_data]) room in
  if (length (Room.players room) <=? length (Room.submitted_drawings room))%nat
  then Room.set_game_phase GAME_OVER room
  else room.

(** The room after the two conditionals of [get_room_details]. *)
Definition polled (room : Room.t) (now : Z) (result : GeminiResult.t) : Room.t :=
  let room :=
    match Room.round_start_time room with
    | Some start =>
        if bool_decide (Room.game_phase room = DRAWING)
           && elapsed_ge now start (Room.round_duration_seconds room)
        then Room.set_game_phase GAME_OVER room
        else room
    | None => room
    end in
  if bool_decide (Room.game_phase room = GAME_OVER)
     && bool_decide (Room.judgment_result room = None)
  then run_gemini_judgment room result
  else room.

(** The mutations of one room object, each with the checks the handler
    passed before making it. *)
Inductive room_update (r : Room.t) : Room.t → Prop :=
| ru_join p :
    active_phase (Room.game_phase r) = false →
    (Z.of_nat (length (Room.players r)) < Room.max_players r)%Z →
    room_update r (Room.set_players (Room.players r ++ [p]) r)
| ru_leave player_id :
    player_id ∈ Player.id <$> Room.players r →
    remaining player_id (Room.players r) ≠ [] →
    room_update r (leave_room_finish
                     (Room.set_players (remaining player_id (Room.players r)) r)
                     player_id)
| ru_start rnd now :
    Room.game_phase r = LOBBY →
    (MIN_PLAYERS_TO_START ≤ Z.of_nat (length (Room.players r)))%Z →
    room_update r (round_started r rnd now)
| ru_play_again rnd now :
    Room.game_phase r = GAME_OVER →
    (MIN_PLAYERS_TO_START ≤ Z.of_nat (length (Room.players r)))%Z →
    room_update r (round_started r rnd now)
| ru_lobby :
    Room.game_phase r = GAME_OVER →
    (Z.of_nat (length (Room.players r)) < MIN_PLAYERS_TO_START)%Z →
    room_update r (_reset_game_state_fields r LOBBY)
| ru_submit request_data :
    Room.game_phase r = DRAWING →
    SubmitDrawingRequest.player_id request_data
      ∉ SubmittedDrawing.drawer_id <$> Room.submitted_drawings r →
    room_update r (submitted r request_data)
| ru_get now result :
    room_update r (polled r now result)
| ru_task result :
    room_update r (run_gemini_judgment r result).

(** The room code a request is addressed to, after [upper]. *)
Definition addressed (a : Action) : option string :=
  match a with
  | Join c _ _ | Leave c _ | Start c _ _ _ | Submit c _
  | PlayAgain c _ _ _ | Judge c | Get c _ _ => Some (upper c)
  | Create _ _ _ | RunTask _ _ => None
  end.

(** The state after a request addressed to [code]. *)
Inductive request_effect (st : State) (code : string) : State → Prop :=
| re_same : request_effect st code st
| re_update l r r' :
    fetch st code = Some (l, r) → room_update r r' →
    request_effect st code (store l r' st)
| re_close l r :
    fetch st code = Some (l, r) →
    request_effect st code
      (mkState (<[l := Room.set_players [] r]> (heap st))
               (delete code (rooms_db st)) (background_tasks st))
| re_queue l r :
    fetch st code = Some (l, r) → Room.game_phase r = GAME_OVER →
    request_effect st code
      (mkState (heap st) (rooms_db st) (background_tasks st ++ [l])).

(** The state after any step. *)
Inductive step_effect (st : State) : State → Prop :=
| se_request code st' : request_effect st code st' → step_effect st st'
| se_create tokens code uuid room_data :
    generate_room_code tokens (rooms_db st) = Some code →
    step_effect st
      (mkState (heap st ++ [new_room code uuid room_data])
               (<[code := length (heap st)]> (rooms_db st))
               (background_tasks st))
| se_task i l r result :
    background_tasks st !! i = Some l → heap st !! l = Some r →
    step_effect st
      (mkState (<[l := run_gemini_judgment r result]> (heap st))
               (rooms_db st) (delete i (background_tasks st)))
| se_task_lost i l :
    background_tasks st !! i = Some l → heap st !! l = None →
    step_effect st
      (mkState (heap st) (rooms_db st) (delete i (background_tasks st))).

(** ** Further invariants *)

(** Registered rooms are keyed by their own code, which [upper] leaves
    unchanged, and every queued task refers to an object of the heap. *)
Definition store_ok (st : State) : Prop :=
  (∀ code l, rooms_db st !! code = Some l →
     ∃ r, heap st !! l = Some r ∧ Room.code r = code ∧ upper code = code) ∧
  Forall (fun l => (l < length (heap st))%nat) (background_tasks st).

Definition room_limits (room : Room.t) : Prop :=
  Room.max_players room = MAX_PLAYERS_PER_ROOM ∧
  Room.round_duration_seconds room = ROUND_DURATION_SECONDS ∧
  (Z.of_nat (length (Room.players room)) ≤ MAX_PLAYERS_PER_ROOM)%Z.

Definition known_phase (room : Room.t) : Prop :=
  Room.game_phase room ≠ ROUND_TRANSITION.

(** The topic of the room and the topics recorded in its drawings. *)
Definition topics_ok (room : Room.t) : Prop :=
  (Room.game_phase room = DRAWING → is_Some (Room.current_topic room)) ∧
  (∀ t, Room.current_topic room = Some t →
     t ∈ PREDEFINED_TOPICS ∧
     ∀ d, d ∈ Room.submitted_drawings room → SubmittedDrawing.topic d = t) ∧
  (∀ d, d ∈ Room.submitted_drawings room →
     SubmittedDrawing.topic d ∈ PREDEFINED_TOPICS).

(** ** Further concrete runs *)

Definition one_code_taken : gmap string nat := {[ "ABCAB1" := 0%nat ]}.

(** Alice's room ABCAB1 with Bob in it, and Carol's room QBWAE9. *)
Definition two_rooms : list Action :=
  [ Create ["abc_-1xyz"] alice_id (RoomCreate.mk (Some "Unnamed Room") "Alice");
    Create ["abc_-1xyz"; "q-w_e9rt"] carol_id (RoomCreate.mk None "Carol");
    Join "abcab1" bob_id (RoomJoin.mk "Bob") ].

(** Alice is alone in a finished round, asks for a judgment and leaves
    before the queued task has run. *)
Definition closed_before_judgment : list Action :=
  round_aborted ++
  [ Judge "ABCAB1"; Leave "ABCAB1" (PlayerIdBody.mk alice_id) ].

(** A room in the drawing phase is empty (an object no longer registered)
    or has at least the minimum number of players. *)
Definition round_has_players (room : Room.t) : Prop :=
  Room.game_phase room = DRAWING →
  Room.players room = [] ∨ (2 ≤ length (Room.players room))%nat.

(** ** Replies of the judge *)

(** No character of [s] is a line boundary. *)
Definition single_line (s : string) : bool :=
  forallb (fun c => negb (is_line_boundary c)) (list_ascii_of_string s).

(** Every character of [s] is white space. *)
Definition blank (s : string) : bool :=
  match rstrip s with
  | EmptyString => true
  | _ => false
  end.

(** The lines, each followed by a line feed. *)
Definition unlines (lines : list string) : string :=
  foldr (fun line text => line +:+ newline +:+ text) EmptyString lines.

(** The lines of a reply in the format the prompt asks for, after any
    lines the judge chose to put first. *)
Definition reply_lines (preamble descriptions : list string)
    (winner reason : string) : list string :=
  preamble ++ ["Descriptions:"] ++ (String.append "- " <$> descriptions)
           ++ ["Winner: " +:+ winner; "Reason: " +:+ reason].







Definition named_drawers (room : Room.t) : Prop :=
  ∀ d, d ∈ Room.submitted_drawings room →
       SubmittedDrawing.drawer_name d ≠ EmptyString.

(** * Properties *)

(** ** Basic facts about the store *)

Lemma fetch_Some st code l room :
  fetch st code = Some (l, room) ↔
  rooms_db st !! code = Some l ∧ heap st !! l = Some room.
Proof.
  unfold fetch. split.
  - destruct (rooms_db st !! code) as [l0|]; [|done].
    destruct (heap st !! l0) as [r0|] eqn:Hh; [|done].
    intros [= <- <-]. done.
  - intros [-> ->]. done.
Qed.

Lemma store_lookup_eq st l room room' :
  heap st !! l = Some room → heap (store l room' st) !! l = Some room'.
Proof.
  intros H. simpl. apply list_lookup_insert_eq. by eapply lookup_lt_Some.
Qed.

(** A [str] is never equal to a [SubmittedDrawing], so the membership test
    that guards the removal in [leave_room] is always false. *)
Lemma py_in_str_drawings s (drawings : list SubmittedDrawing.t) :
  py_in (VStr s) (VDrawing <$> drawings) = false.
Proof.
  unfold py_in. induction drawings as [|d ds IH]; [done|].
  simpl. exact IH.
Qed.

Lemma run_app st acts1 acts2 : run st (acts1 ++ acts2) = run (run st acts1) acts2.
Proof. unfold run. apply fold_left_app. Qed.

Lemma reachable_init : reachable init.
Proof. by exists []. Qed.

Lemma reachable_step st a : reachable st → reachable (fst (step st a)).
Proof.
  intros [acts <-]. exists (acts ++ [a]). by rewrite run_app.
Qed.

Lemma reachable_ind (P : State → Prop) :
  P init →
  (∀ st a, reachable st → P st → P (fst (step st a))) →
  ∀ st, reachable st → P st.
Proof.
  intros Hinit Hstep st [acts <-].
  induction acts as [|a acts IH] using rev_ind; [done|].
  rewrite run_app. simpl. apply Hstep; [by exists acts | done].
Qed.

(** ** What one step does to the store *)

Lemma generate_room_code_fresh tokens db code :
  generate_room_code tokens db = Some code → db !! code = None.
Proof.
  induction tokens as [|tok rest IH]; [done|].
  simpl. case_match eqn:Hl; [exact IH|]. by intros [= <-].
Qed.

Lemma create_shape st tokens uuid room_data st' o :
  create_new_room st tokens uuid room_data = Some (st', o) → step_shape st st'.
Proof.
  unfold create_new_room.
  destruct (generate_room_code _ _) as [code|] eqn:Hg; [|done].
  intros [= <- _]. apply shape_create.
  - by eapply generate_room_code_fresh.
  - by eexists _, _, (Player.mk uuid _).
Qed.

Lemma join_shape st c uuid d : step_shape st (fst (join_existing_room st c uuid d)).
Proof.
  unfold join_existing_room.
  destruct (fetch st (upper c)) as [[l room]|] eqn:Hf; [|apply shape_same].
  repeat case_match; simpl; try apply shape_same.
  eapply shape_store; [done|]. apply rs_join.
Qed.

Lemma leave_shape st c b : step_shape st (fst (leave_room st c b)).
Proof.
  unfold leave_room.
  destruct (fetch st (upper c)) as [[l room]|] eqn:Hf; [|apply shape_same].
  destruct (find _ _) as [p|]; [|apply shape_same].
  rewrite py_in_str_drawings.
  simpl. fold (remaining (PlayerIdBody.player_id b) (Room.players room)).
  destruct (remaining _ _) as [|q qs] eqn:Hr; simpl.
  - eapply shape_close. done.
  - eapply shape_store; [done|]. rewrite <- Hr. apply rs_leave. by rewrite Hr.
Qed.

Lemma start_shape st c b rnd now : step_shape st (fst (start_game st c b rnd now)).
Proof.
  unfold start_game.
  destruct (fetch st (upper c)) as [[l room]|] eqn:Hf; [|apply shape_same].
  repeat case_match; simpl; try apply shape_same.
  eapply shape_store; [done|]. apply rs_round.
Qed.

Lemma play_again_shape st c b rnd now :
  step_shape st (fst (play_again st c b rnd now)).
Proof.
  unfold play_again.
  destruct (fetch st (upper c)) as [[l room]|] eqn:Hf; [|apply shape_same].
  repeat case_match; simpl; try apply shape_same.
  - eapply shape_store; [done|]. apply rs_lobby.
  - eapply shape_store; [done|]. apply rs_round.
Qed.

Lemma submit_shape st c r :
  step_shape st (fst (submit_drawing_and_advance_turn st c r)).
Proof.
  unfold submit_drawing_and_advance_turn.
  destruct (fetch st (upper c)) as [[l room]|] eqn:Hf; [|apply shape_same].
  destruct (bool_decide (Room.game_phase room ≠ DRAWING)) eqn:Hp;
    [apply shape_same|].
  apply bool_decide_eq_false in Hp. apply dec_stable in Hp.
  destruct (existsb _ _) eqn:He; [apply shape_same|].
  fold (drawing_of room r). simpl.
  eapply shape_store; [done|].
  case_match.
  - eapply rs_trans; [by apply rs_submit|]. by apply rs_game_over.
  - by apply rs_submit.
Qed.

Lemma judge_shape st c : step_shape st (fst (judge_room st c)).
Proof.
  unfold judge_room.
  destruct (fetch st (upper c)) as [[l room]|] eqn:Hf; [|apply shape_same].
  case_match; simpl; [apply shape_same | apply shape_queue].
Qed.

Lemma get_shape st c now g : step_shape st (fst (get_room_details st c now g)).
Proof.
  unfold get_room_details.
  destruct (fetch st (upper c)) as [[l room]|] eqn:Hf; [|apply shape_same].
  simpl. eapply shape_store; [done|].
  match goal with
  | |- room_step _ (if ?b then run_gemini_judgment ?r1 _ else _) =>
      apply (rs_trans _ r1);
      [| destruct b; [apply rs_judgment | apply rs_refl] ]
  end.
  destruct (Room.round_start_time room) as [t|]; [|apply rs_refl].
  destruct (bool_decide (Room.game_phase room = DRAWING)) eqn:Hp;
    simpl; [|apply rs_refl].
  apply bool_decide_eq_true in Hp.
  destruct (elapsed_ge _ _ _); [by apply rs_game_over | apply rs_refl].
Qed.

Lemma task_shape st i g : step_shape st (run_background_task st i g).
Proof.
  unfold run_background_task.
  destruct (background_tasks st !! i) as [l|]; [|apply shape_same].
  destruct (heap st !! l) as [room|] eqn:Hh.
  - unfold store. simpl. by apply shape_task.
  - apply shape_task_lost.
Qed.

Lemma step_has_shape st a : step_shape st (fst (step st a)).
Proof.
  destruct a; simpl.
  - destruct (create_new_room _ _ _ _) as [[st' o]|] eqn:Hc; simpl.
    + by eapply create_shape.
    + apply shape_same.
  - apply join_shape.
  - apply leave_shape.
  - apply start_shape.
  - apply submit_shape.
  - apply play_again_shape.
  - apply judge_shape.
  - apply get_shape.
  - apply task_shape.
Qed.

(** ** Invariants of room objects *)

Lemma heap_invariant (P : Room.t → Prop) :
  (∀ r, created r → P r) →
  (∀ r r', room_step r r' → P r → P r') →
  (∀ r, P r → P (Room.set_players [] r)) →
  ∀ st, reachable st → ∀ l r, heap st !! l = Some r → P r.
Proof.
  intros Hc Hs He st Hst. induction Hst as [|st a _ IH] using reachable_ind.
  { intros l r Hl. simpl in Hl. by rewrite lookup_nil in Hl. }
  intros l' r'. destruct (step_has_shape st a) as
    [ | code l r r1 Hf Hrs | code room Hfresh Hroom | code l r Hf | l
    | i l r g Hh | i ]; simpl; try apply IH.
  - apply fetch_Some in Hf as [_ Hl].
    destruct (decide (l = l')) as [<-|Hne].
    + rewrite list_lookup_insert_eq; [|by eapply lookup_lt_Some].
      intros [= <-]. eauto.
    + rewrite list_lookup_insert_ne; [apply IH | done].
  - intros [H|[_ H]]%lookup_app_Some; [by eapply IH|].
    destruct (l' - length (heap st)) as [|n]; [|by destruct n].
    injection H as <-. by apply Hc.
  - apply fetch_Some in Hf as [_ Hl].
    destruct (decide (l = l')) as [<-|Hne].
    + rewrite list_lookup_insert_eq; [|by eapply lookup_lt_Some].
      intros [= <-]. eauto.
    + rewrite list_lookup_insert_ne; [apply IH | done].
  - destruct (decide (l = l')) as [<-|Hne].
    + rewrite list_lookup_insert_eq; [|by eapply lookup_lt_Some].
      intros [= <-]. eapply Hs; [apply rs_judgment | eauto].
    + rewrite list_lookup_insert_ne; [apply IH | done].
Qed.

Lemma leave_room_finish_players r pid :
  Room.players (leave_room_finish r pid) = Room.players r.
Proof. unfold leave_room_finish. by repeat case_match. Qed.

Lemma leave_room_finish_submitted r pid :
  Room.submitted_drawings (leave_room_finish r pid) = Room.submitted_drawings r.
Proof. unfold leave_room_finish. by repeat case_match. Qed.

Lemma leave_room_finish_judgment r pid :
  Room.judgment_result (leave_room_finish r pid) = Room.judgment_result r.
Proof. unfold leave_room_finish. by repeat case_match. Qed.

Lemma leave_room_finish_start_time r pid :
  Room.round_start_time (leave_room_finish r pid) = Room.round_start_time r.
Proof. unfold leave_room_finish. by repeat case_match. Qed.

Lemma leave_room_finish_host r pid :
  Room.host_id (leave_room_finish r pid) =
  if String.eqb (Room.host_id r) pid
  then match Room.players r with
       | p :: _ => Player.id p
       | [] => Room.host_id r
       end
  else Room.host_id r.
Proof. unfold leave_room_finish. by repeat case_match. Qed.

Lemma leave_room_finish_topic r pid :
  (Room.game_phase (leave_room_finish r pid) = Room.game_phase r ∧
   Room.current_topic (leave_room_finish r pid) = Room.current_topic r) ∨
  (Room.game_phase (leave_room_finish r pid) = GAME_OVER ∧
   Room.current_topic (leave_room_finish r pid) = None).
Proof. unfold leave_room_finish. repeat case_match; simpl; auto. Qed.

Lemma run_gemini_judgment_fields r g :
  let r' := run_gemini_judgment r g in
  Room.players r' = Room.players r ∧ Room.host_id r' = Room.host_id r ∧
  Room.game_phase r' = Room.game_phase r ∧
  Room.current_topic r' = Room.current_topic r ∧
  Room.round_start_time r' = Room.round_start_time r ∧
  Room.submitted_drawings r' = Room.submitted_drawings r ∧
  is_Some (Room.judgment_result r').
Proof. unfold run_gemini_judgment. by case_match. Qed.

(** *** The host is a player *)

Lemma remaining_member pid id0 players :
  id0 ≠ pid → id0 ∈ Player.id <$> players →
  id0 ∈ Player.id <$> remaining pid players.
Proof.
  intros Hne (p & -> & Hp)%list_elem_of_fmap.
  apply list_elem_of_fmap. exists p. split; [done|].
  apply list_elem_of_In, filter_In. split; [by apply list_elem_of_In|].
  apply negb_true_iff. by apply String.eqb_neq.
Qed.

Lemma room_step_members r r' :
  room_step r r' →
  Room.players r ≠ [] ∧ host_is_member r →
  Room.players r' ≠ [] ∧ host_is_member r'.
Proof.
  unfold host_is_member.
  induction 1 as [ r | r1 r2 r3 _ IH1 _ IH2 | r p | r pid Hrem | r topic now
                 | r | r req Hp He | r Hp | r g ]; intros [Hne Hh];
    simpl; try done.
  - auto.
  - split; [by destruct (Room.players r)|].
    rewrite fmap_app. apply elem_of_app. by left.
  - rewrite leave_room_finish_players, leave_room_finish_host. simpl.
    split; [done|].
    destruct (String.eqb (Room.host_id r) pid) eqn:Heq.
    + destruct (remaining pid (Room.players r)) as [|q qs]; [done|].
      simpl. apply list_elem_of_here.
    + apply String.eqb_neq in Heq. by apply remaining_member.
  - destruct (run_gemini_judgment_fields r g) as (-> & -> & _). done.
Qed.

Lemma registry_ok_store st code l r r' :
  registry_ok st → fetch st code = Some (l, r) →
  Room.players r' ≠ [] ∧ host_is_member r' →
  registry_ok (store l r' st).
Proof.
  intros (Ha & Hb & Hc) [Hdb Hl]%fetch_Some Hr'.
  split_and!; simpl; [| |done].
  - intros c l' Hc'. destruct (decide (l = l')) as [<-|Hne].
    + exists r'. split; [|done].
      apply list_lookup_insert_eq. by eapply lookup_lt_Some.
    + rewrite list_lookup_insert_ne by done. eauto.
  - intros l' r0. destruct (decide (l = l')) as [<-|Hne].
    + intros _. right. eauto.
    + rewrite list_lookup_insert_ne by done. eauto.
Qed.

Lemma registry_ok_step st a : registry_ok st → registry_ok (fst (step st a)).
Proof.
  intros Hok. destruct (step_has_shape st a) as
    [ | code l r r1 Hf Hrs | code room Hfresh Hroom | code l r Hf | l
    | i l r g Hh | i ]; try done.
  - eapply registry_ok_store; [done..|].
    eapply room_step_members; [done|].
    destruct Hok as (Ha & _). apply fetch_Some in Hf as [Hdb Hl].
    destruct (Ha _ _ Hdb) as (r0 & Hl0 & ?). by simplify_eq.
  - destruct Hok as (Ha & Hb & Hc).
    destruct Hroom as (nm & cd & p & ->).
    split_and!; simpl.
    + intros c l. destruct (decide (code = c)) as [<-|Hne].
      * rewrite lookup_insert_eq. intros [= <-].
        eexists. split; [by apply list_lookup_middle|].
        split; [done|]. unfold host_is_member. simpl. apply list_elem_of_here.
      * rewrite lookup_insert_ne by done. intros Hdb.
        destruct (Ha _ _ Hdb) as (r0 & Hl0 & ?). exists r0.
        split; [|done]. by apply lookup_app_l_Some.
    + intros l r [H|[Hlen H]]%lookup_app_Some.
      * destruct (Hb _ _ H) as [?|[c Hdb]]; [by left|]. right. exists c.
        rewrite lookup_insert_ne; [done|]. by intros <-; simplify_eq.
      * right. exists code.
        destruct (l - length (heap st)) as [|n] eqn:Hd; [|by destruct n].
        rewrite lookup_insert_eq. f_equal. lia.
    + assert (∀ c, rooms_db st !! c = Some (length (heap st)) → False) as Hnew.
      { intros c Hdb. destruct (Ha _ _ Hdb) as (r0 & Hl0 & _).
        apply lookup_lt_Some in Hl0. lia. }
      intros c1 c2 l.
      destruct (decide (code = c1)) as [<-|Hne1];
        destruct (decide (code = c2)) as [<-|Hne2]; [done|..].
      * rewrite lookup_insert_eq, lookup_insert_ne by done.
        intros [= <-] Hdb. by destruct (Hnew _ Hdb).
      * rewrite lookup_insert_eq, lookup_insert_ne by done.
        intros Hdb [= <-]. by destruct (Hnew _ Hdb).
      * rewrite !lookup_insert_ne by done. apply Hc.
  - destruct Hok as (Ha & Hb & Hc). apply fetch_Some in Hf as [Hdb Hl].
    split_and!; simpl.
    + intros c l'. destruct (decide (code = c)) as [<-|Hne].
      * by rewrite lookup_delete_eq.
      * rewrite lookup_delete_ne by done. intros Hdb'.
        rewrite list_lookup_insert_ne; [eauto|].
        intros <-. apply Hne. by eapply Hc.
    + intros l' r0. destruct (decide (l = l')) as [<-|Hne].
      * rewrite list_lookup_insert_eq by (by eapply lookup_lt_Some).
        intros [= <-]. by left.
      * rewrite list_lookup_insert_ne by done. intros Hl'.
        destruct (Hb _ _ Hl') as [?|[c Hdb']]; [by left|]. right. exists c.
        rewrite lookup_delete_ne; [done|]. intros <-. by simplify_eq.
    + intros c1 c2 l' [_ H1]%lookup_delete_Some [_ H2]%lookup_delete_Some.
      by eapply Hc.
  - destruct Hok as (Ha & Hb & Hc).
    destruct (run_gemini_judgment_fields r g) as (Hp & Hhost & _).
    split_and!; simpl; [| |done].
    + intros c l' Hdb. destruct (decide (l = l')) as [<-|Hne].
      * destruct (Ha _ _ Hdb) as (r0 & Hl0 & Hne0 & Hmem). simplify_eq.
        eexists. split; [apply list_lookup_insert_eq; by eapply lookup_lt_Some|].
        unfold host_is_member in *. by rewrite Hp, Hhost.
      * rewrite list_lookup_insert_ne by done. eauto.
    + intros l' r0. destruct (decide (l = l')) as [<-|Hne].
      * rewrite list_lookup_insert_eq by (by eapply lookup_lt_Some).
        intros [= <-]. rewrite Hp. eauto.
      * rewrite list_lookup_insert_ne by done. eauto.
Qed.

Lemma registry_ok_reachable st : reachable st → registry_ok st.
Proof.
  induction 1 as [|st a _ IH] using reachable_ind.
  - split_and!; simpl; try done; intros l r Hl; by rewrite lookup_nil in Hl.
  - by apply registry_ok_step.
Qed.

Lemma fetch_store st code l room room' :
  fetch st code = Some (l, room) → fetch (store l room' st) code = Some (l, room').
Proof.
  intros [Hdb Hl]%fetch_Some. apply fetch_Some. split; [done|].
  by eapply store_lookup_eq.
Qed.

(** ** Submission *)

(** C9. In a room in the drawing phase, a submit whose player id already
    has a submission this round fails with 400 (BadRequest) and changes
    nothing: the state after is the state before, so [submitted_drawings]
    and its length are unchanged. *)
Theorem duplicate_submission_rejected st code l room request_data :
  fetch st (upper code) = Some (l, room) →
  Room.game_phase room = DRAWING →
  SubmitDrawingRequest.player_id request_data
    ∈ SubmittedDrawing.drawer_id <$> Room.submitted_drawings room →
  submit_drawing_and_advance_turn st code request_data =
    (st, Raise (mkHTTPException HTTP_400_BAD_REQUEST
                  "You have already submitted your drawing.")).
Proof.
  intros Hf Hp Hin. unfold submit_drawing_and_advance_turn. rewrite Hf, Hp.
  rewrite bool_decide_eq_false_2 by (by intros ?).
  assert (existsb (fun d => String.eqb (SubmittedDrawing.drawer_id d)
                              (SubmitDrawingRequest.player_id request_data))
                  (Room.submitted_drawings room) = true) as ->; [|done].
  apply list_elem_of_fmap in Hin as (d & Hd & Hin).
  apply existsb_exists. exists d. split; [by apply list_elem_of_In|].
  apply String.eqb_eq. done.
Qed.

Lemma duplicate_submission_rejected_witness :
  let st := run init alice_submitted in
  let request_data := SubmitDrawingRequest.mk alice_id "aGk=" in
  submit_drawing_and_advance_turn st "abcab1" request_data =
    (st, Raise (mkHTTPException HTTP_400_BAD_REQUEST
                  "You have already submitted your drawing.")).
Proof.
  intros st request_data.
  eapply (duplicate_submission_rejected st "abcab1").
  - vm_compute. reflexivity.
  - reflexivity.
  - vm_compute. left.
Defined.

Lemma existsb_drawer_false pid (drawings : list SubmittedDrawing.t) :
  pid ∉ SubmittedDrawing.drawer_id <$> drawings →
  existsb (fun d => String.eqb (SubmittedDrawing.drawer_id d) pid) drawings = false.
Proof.
  intros Hnin. apply not_true_is_false. intros (d & Hd & He)%existsb_exists.
  apply Hnin. apply String.eqb_eq in He as <-.
  apply list_elem_of_fmap. exists d. split; [done|]. by apply list_elem_of_In.
Qed.

(** C8. In a room in the drawing phase, a submit that succeeds (its player
    id has no submission yet) and brings the number of submissions to at
    least the number of players returns the room with the new drawing
    appended and with phase game_over, and stores that room. *)
Theorem full_submission_ends_round st code l room request_data :
  fetch st (upper code) = Some (l, room) →
  Room.game_phase room = DRAWING →
  SubmitDrawingRequest.player_id request_data
    ∉ SubmittedDrawing.drawer_id <$> Room.submitted_drawings room →
  (length (Room.players room) ≤ S (length (Room.submitted_drawings room)))%nat →
  ∃ room',
    submit_drawing_and_advance_turn st code request_data =
      (store l room' st, Return room') ∧
    fetch (store l room' st) (upper code) = Some (l, room') ∧
    Room.submitted_drawings room' =
      Room.submitted_drawings room ++ [drawing_of room request_data] ∧
    Room.game_phase room' = GAME_OVER.
Proof.
  intros Hf Hp Hnin Hlen. unfold submit_drawing_and_advance_turn.
  rewrite Hf, Hp, bool_decide_eq_false_2 by (by intros ?).
  rewrite existsb_drawer_false by done. fold (drawing_of room request_data).
  simpl. rewrite length_app. simpl.
  destruct (Nat.leb_spec (length (Room.players room))
              (length (Room.submitted_drawings room) + 1)) as [_|Hlt]; [|lia].
  eexists. split; [reflexivity|].
  split; [by eapply fetch_store|]. done.
Qed.

Lemma full_submission_ends_round_witness :
  let st := run init alice_submitted in
  let request_data := SubmitDrawingRequest.mk bob_id "Ym9i" in
  ∃ room',
    submit_drawing_and_advance_turn st "ABCAB1" request_data =
      (store 0 room' st, Return room') ∧
    fetch (store 0 room' st) (upper "ABCAB1") = Some (0, room') ∧
    length (Room.submitted_drawings room') = 2 ∧
    Room.game_phase room' = GAME_OVER.
Proof.
  intros st request_data.
  edestruct (full_submission_ends_round st "ABCAB1" 0) with
    (request_data := request_data) as (room' & H1 & H2 & H3 & H4).
  - vm_compute. reflexivity.
  - reflexivity.
  - vm_compute. intros H. apply list_elem_of_In in H. simpl in H.
    destruct H as [H|[]]. discriminate H.
  - vm_compute. lia.
  - exists room'. split; [exact H1|]. split; [exact H2|]. split; [|exact H4].
    rewrite H3. reflexivity.
Defined.

(** ** Lazy timeout *)

(** C7. When [get] reads a room whose phase is drawing and whose round
    started at least [round_duration_seconds] seconds before [now] (the
    stamps [start] and [now] are in microseconds), the room is moved to
    game_over before it is returned: the returned room and the stored room
    are the same and have phase game_over. *)
Theorem lazy_timeout st code l room start now result :
  fetch st (upper code) = Some (l, room) →
  Room.game_phase room = DRAWING →
  Room.round_start_time room = Some start →
  (Room.round_duration_seconds room * 1000000 ≤ now - start)%Z →
  ∃ room',
    get_room_details st code now result = (store l room' st, Return room') ∧
    fetch (store l room' st) (upper code) = Some (l, room') ∧
    Room.game_phase room' = GAME_OVER.
Proof.
  intros Hf Hp Ht Hd. unfold get_room_details. rewrite Hf, Ht, Hp.
  rewrite (bool_decide_eq_true_2 (DRAWING = DRAWING)) by done.
  unfold elapsed_ge. rewrite (proj2 (Z.leb_le _ _) Hd). simpl.
  eexists. split; [reflexivity|]. split; [by eapply fetch_store|].
  destruct (bool_decide _); [|done].
  by destruct (run_gemini_judgment_fields (Room.set_game_phase GAME_OVER room)
                 result) as (_ & _ & -> & _).
Qed.

Lemma lazy_timeout_witness :
  let st := run init two_players_drawing in
  let result := GeminiResult.mk EmptyString EmptyString in
  ∃ room',
    get_room_details st "ABCAB1" 101000000 result =
      (store 0 room' st, Return room') ∧
    fetch (store 0 room' st) (upper "ABCAB1") = Some (0, room') ∧
    Room.game_phase room' = GAME_OVER.
Proof.
  intros st result.
  eapply (lazy_timeout st "ABCAB1" 0 _ 1000000 101000000 result).
  - vm_compute. reflexivity.
  - reflexivity.
  - reflexivity.
  - vm_compute. discriminate.
Defined.

(** ** Host membership *)

Lemma find_player_member pid players :
  pid ∈ Player.id <$> players →
  is_Some (find (fun p => String.eqb (Player.id p) pid) players).
Proof.
  intros (p & -> & Hp)%list_elem_of_fmap.
  destruct (find _ _) eqn:Hf; [by eexists|].
  apply list_elem_of_In in Hp. apply (find_none _ _ Hf) in Hp.
  by rewrite String.eqb_refl in Hp.
Qed.

Lemma find_player_id pid players p :
  find (fun p => String.eqb (Player.id p) pid) players = Some p →
  pid ∈ Player.id <$> players.
Proof.
  intros [Hin Heq]%find_some. apply String.eqb_eq in Heq as <-.
  apply list_elem_of_fmap. exists p. split; [done|]. by apply list_elem_of_In.
Qed.



(** ** Topic and start time *)

(** C5, as stated, fails: after a leave has ended a drawing round for lack
    of players the room has no topic but still has its start time. *)
Lemma topic_and_start_time_together_fails :
  ¬ (∀ st l room,
       reachable st → heap st !! l = Some room →
       topic_and_start_time_together room).
Proof.
  intros H.
  destruct (H (run init round_aborted) 0
              (Room.mk (Some "Unnamed Room") "ABCAB1" alice_id
                 [Player.mk alice_id "Alice"] 6 GAME_OVER None (Some 1000000%Z)
                 100 [SubmittedDrawing.mk alice_id "Alice" "Dog" "aGk="] None))
    as [_ Hback].
  - by exists round_aborted.
  - vm_compute. reflexivity.
  - simpl in Hback. destruct Hback as [t Ht]; [by eexists|]. discriminate Ht.
Qed.

Lemma room_step_topic_and_start_time r r' :
  room_step r r' → topic_and_start_time_ok r → topic_and_start_time_ok r'.
Proof.
  unfold topic_and_start_time_ok, topic_and_start_time_together.
  induction 1 as [ r | r1 r2 r3 _ IH1 _ IH2 | r p | r pid Hrem | r topic now
                 | r | r req Hp He | r Hp | r g ]; intros Hok;
    simpl; try done.
  - auto.
  - rewrite leave_room_finish_start_time. simpl.
    destruct (leave_room_finish_topic
                (Room.set_players (remaining pid (Room.players r)) r) pid)
      as [[-> ->]|[-> ->]]; [done|].
    destruct (Room.round_start_time r) as [start|].
    + right. split_and!; [done..|by eexists].
    + left. split; intros [? ?]; done.
  - left. split; intros _; by eexists.
  - left. split; intros [? ?]; done.
  - destruct Hok as [Hok|(Hg & _)]; [left; exact Hok | congruence].
  - by destruct (run_gemini_judgment_fields r g) as (_ & _ & -> & -> & -> & _).
Qed.

(** C5, amended. In every reachable state every room object has
    [current_topic] and [round_start_time] both set or both unset, except
    that a room in phase game_over may have no topic while its start time
    is still set. *)
Theorem topic_and_start_time_invariant st l room :
  reachable st → heap st !! l = Some room → topic_and_start_time_ok room.
Proof.
  intros Hst. revert l room.
  apply (heap_invariant topic_and_start_time_ok); [| |done|done].
  - intros r (nm & code & p & ->). left. split; intros [? ?]; done.
  - apply room_step_topic_and_start_time.
Qed.

Lemma topic_and_start_time_invariant_witness :
  ∃ room,
    heap (run init round_aborted) !! 0 = Some room ∧
    topic_and_start_time_ok room ∧
    Room.current_topic room = None ∧
    Room.round_start_time room = Some 1000000%Z.
Proof.
  eexists. split; [vm_compute; reflexivity|]. split; [|split; reflexivity].
  apply (topic_and_start_time_invariant (run init round_aborted) 0).
  - exists round_aborted. reflexivity.
  - vm_compute. reflexivity.
Defined.

(** A room in the drawing phase has its start time, so the timeout test of
    [get_room_details] is never skipped for want of one. *)
Lemma drawing_has_start_time st l room :
  reachable st → heap st !! l = Some room →
  Room.game_phase room = DRAWING →
  is_Some (Room.current_topic room) ∧ is_Some (Room.round_start_time room).
Proof.
  intros Hst. revert l room.
  apply (heap_invariant
           (fun r => Room.game_phase r = DRAWING →
                     is_Some (Room.current_topic r) ∧
                     is_Some (Room.round_start_time r))); [| |done|done].
  - by intros r (nm & code & p & ->).
  - induction 1 as [ r | r1 r2 r3 _ IH1 _ IH2 | r p | r pid Hrem | r topic now
                   | r | r req Hp He | r Hp | r g ]; simpl; try done.
    + auto.
    + rewrite leave_room_finish_start_time.
      destruct (leave_room_finish_topic
                  (Room.set_players (remaining pid (Room.players r)) r) pid)
        as [[-> ->]|[-> ->]]; done.
    + by destruct (run_gemini_judgment_fields r g) as (_ & _ & -> & -> & -> & _).
Qed.

(** ** Submissions per player *)


Lemma existsb_drawer_false_inv pid (drawings : list SubmittedDrawing.t) :
  existsb (fun d => String.eqb (SubmittedDrawing.drawer_id d) pid) drawings = false →
  pid ∉ SubmittedDrawing.drawer_id <$> drawings.
Proof.
  intros He (d & -> & Hin)%list_elem_of_fmap.
  assert (existsb (fun d0 => String.eqb (SubmittedDrawing.drawer_id d0)
                               (SubmittedDrawing.drawer_id d)) drawings = true)
    as Ht; [|congruence].
  apply existsb_exists. exists d. split; [by apply list_elem_of_In|].
  apply String.eqb_refl.
Qed.





(** ** Rejected actions *)

(** C4, as stated, fails: when the host asks to play again in a finished
    room with fewer than two players, [play_again] resets the room to the
    lobby and then raises 400. *)
Lemma rejected_actions_change_nothing_fails : ¬ rejected_actions_change_nothing.
Proof.
  intros H.
  pose (st := run init round_aborted).
  pose (a := PlayAgain "ABCAB1" (PlayerIdBody.mk alice_id) 0 0).
  assert (fst (step st a) = st) as Heq.
  { apply (H st a (fst (step st a)) shortfall).
    - by exists round_aborted.
    - vm_compute. reflexivity.
    - right. right. reflexivity. }
  apply (f_equal (fun s => Room.game_phase <$> heap s !! 0)) in Heq.
  vm_compute in Heq. discriminate Heq.
Qed.

Lemma rejection_200 s : ¬ rejection (mkHTTPException HTTP_200_OK s).
Proof. by intros [?|[?|?]]. Qed.

Lemma rejection_500 s :
  ¬ rejection (mkHTTPException HTTP_500_INTERNAL_SERVER_ERROR s).
Proof. by intros [?|[?|?]]. Qed.

(** C4, amended. An action that ends in NotFound, Forbidden or BadRequest
    leaves the whole state as it was, with one exception: [play_again] by
    the host of a game_over room with fewer than the minimum number of
    players raises BadRequest after it has reset that room to the lobby
    (phase lobby, no topic, no start time, no submissions). *)
Theorem rejected_action_effect st a st' e :
  step st a = (st', Some (Raise e)) →
  rejection e →
  st' = st ∨
  ∃ code body rnd now l room,
    a = PlayAgain code body rnd now ∧
    fetch st (upper code) = Some (l, room) ∧
    Room.host_id room = PlayerIdBody.player_id body ∧
    Room.game_phase room = GAME_OVER ∧
    (Z.of_nat (length (Room.players room)) < MIN_PLAYERS_TO_START)%Z ∧
    e = shortfall ∧
    st' = store l (_reset_game_state_fields room LOBBY) st.
Proof.
  intros Hstep Hrej. destruct a; simpl in Hstep.
  - left. unfold create_new_room in Hstep.
    destruct (generate_room_code _ _); simpl in Hstep; by simplify_eq.
  - left. unfold join_existing_room in Hstep.
    destruct (fetch st _) as [[l room]|]; simpl in Hstep; [|by simplify_eq].
    repeat case_match; simpl in Hstep; by simplify_eq.
  - left. unfold leave_room in Hstep.
    destruct (fetch st _) as [[l room]|]; simpl in Hstep; [|by simplify_eq].
    destruct (find _ _); simpl in Hstep; [|by simplify_eq].
    rewrite py_in_str_drawings in Hstep.
    destruct (List.filter _ _); simpl in Hstep; simplify_eq.
    by apply rejection_200 in Hrej.
  - left. unfold start_game in Hstep.
    destruct (fetch st _) as [[l room]|]; simpl in Hstep; [|by simplify_eq].
    repeat case_match; simpl in Hstep; by simplify_eq.
  - left. unfold submit_drawing_and_advance_turn in Hstep.
    destruct (fetch st _) as [[l room]|]; simpl in Hstep; [|by simplify_eq].
    repeat case_match; simpl in Hstep; by simplify_eq.
  - unfold play_again in Hstep.
    destruct (fetch st _) as [[l room]|] eqn:Hf; simpl in Hstep;
      [|left; by simplify_eq].
    destruct (String.eqb _ _) eqn:Hhost; simpl in Hstep; [|left; by simplify_eq].
    destruct (bool_decide _) eqn:Hp; simpl in Hstep; [left; by simplify_eq|].
    destruct (Z.ltb_spec (Z.of_nat (length (Room.players room)))
                MIN_PLAYERS_TO_START) as [Hlt|_];
      simpl in Hstep; [|by simplify_eq].
    right. simplify_eq. exists room_code, body, rnd, now, l, room.
    split_and!; try done.
    + by apply String.eqb_eq.
    + apply bool_decide_eq_false in Hp. by apply dec_stable in Hp.
  - left. unfold judge_room in Hstep.
    destruct (fetch st _) as [[l room]|]; simpl in Hstep; [|by simplify_eq].
    repeat case_match; simpl in Hstep; by simplify_eq.
  - left. unfold get_room_details in Hstep.
    destruct (fetch st _) as [[l room]|]; simpl in Hstep; by simplify_eq.
  - done.
Qed.

Lemma rejected_action_effect_witness :
  let st := run init round_aborted in
  let a := PlayAgain "ABCAB1" (PlayerIdBody.mk alice_id) 0 0 in
  fst (step st a) = st ∨
  ∃ code body rnd now l room,
    a = PlayAgain code body rnd now ∧
    fetch st (upper code) = Some (l, room) ∧
    Room.host_id room = PlayerIdBody.player_id body ∧
    Room.game_phase room = GAME_OVER ∧
    (Z.of_nat (length (Room.players room)) < MIN_PLAYERS_TO_START)%Z ∧
    shortfall = shortfall ∧
    fst (step st a) = store l (_reset_game_state_fields room LOBBY) st.
Proof.
  intros st a.
  apply (rejected_action_effect st a (fst (step st a)) shortfall).
  - vm_compute. reflexivity.
  - right. right. reflexivity.
Defined.

(** ** Judgment and round reset *)

(** The guard of [get_room_details]: a judgment that is set is kept. *)
Lemma get_keeps_judgment st code now result l room j st' room' :
  fetch st (upper code) = Some (l, room) →
  Room.judgment_result room = Some j →
  get_room_details st code now result = (st', Return room') →
  Room.judgment_result room' = Some j.
Proof.
  intros Hf Hj. unfold get_room_details. rewrite Hf. intros [= _ <-].
  match goal with
  | |- Room.judgment_result (if _ && bool_decide (?x = None) then _ else ?r) = _ =>
      assert (x = Some j) as Hx; [|rewrite Hx]
  end.
  - by repeat case_match.
  - rewrite (bool_decide_eq_false_2 (Some j = None)) by done.
    rewrite andb_false_r. done.
Qed.

(** The task queued by [judge_room] has no such guard: whatever the room
    holds, running it stores a judgment computed from [result]. *)
Lemma task_sets_judgment st l room result :
  background_tasks st = [l] → heap st !! l = Some room →
  heap (run_background_task st 0 result) !! l =
    Some (run_gemini_judgment room result).
Proof.
  intros Ht Hl. unfold run_background_task. rewrite Ht. simpl. rewrite Hl.
  simpl. apply list_lookup_insert_eq. by eapply lookup_lt_Some.
Qed.

(** C1 (the code departs from it). After a [get] has judged the finished
    round, the explicit judge action is accepted and its task replaces the
    stored judgment by a newly computed one. *)
Theorem judge_action_overwrites_judgment :
  let st := run init round_judged in
  let st' := run st [ Judge "ABCAB1"; RunTask 0 verdict_unavailable ] in
  judgment_of st "ABCAB1" =
    Some (Some (Judgment.mk "- Alice: a dog, allegedly" alice_id "Alice")) ∧
  Room.game_phase <$> returned (snd (judge_room st "ABCAB1")) = Some GAME_OVER ∧
  judgment_of st' "ABCAB1" =
    Some (Some (Judgment.mk "Could not connect to Gemini AI." EmptyString EmptyString)).
Proof. vm_compute. done. Qed.

Lemma reset_keeps_judgment room new_phase :
  Room.judgment_result (_reset_game_state_fields room new_phase) =
  Room.judgment_result room.
Proof. reflexivity. Qed.

(** C2 (the code departs from it). A successful play-again starts a new
    drawing round with no submissions, and the judgment of the round before
    is still in [judgment_result]. *)
Theorem play_again_keeps_judgment :
  let st := run init round_judged in
  let o := snd (play_again st "ABCAB1" (PlayerIdBody.mk alice_id) 7 9000000) in
  judgment_of st "ABCAB1" =
    Some (Some (Judgment.mk "- Alice: a dog, allegedly" alice_id "Alice")) ∧
  Room.game_phase <$> returned o = Some DRAWING ∧
  Room.submitted_drawings <$> returned o = Some [] ∧
  Room.judgment_result <$> returned o =
    Some (Some (Judgment.mk "- Alice: a dog, allegedly" alice_id "Alice")).
Proof. vm_compute. done. Qed.

Lemma leave_keeps_submissions st code body l room st' room' :
  fetch st (upper code) = Some (l, room) →
  leave_room st code body = (st', Return room') →
  Room.submitted_drawings room' = Room.submitted_drawings room.
Proof.
  intros Hf. unfold leave_room. rewrite Hf.
  destruct (find _ _); [|by intros [= _ <-]].
  rewrite py_in_str_drawings. destruct (List.filter _ _); [done|].
  intros [= _ <-]. by rewrite leave_room_finish_submitted.
Qed.

(** C3 (the code departs from it). Bob is a player with a submission; his
    leave succeeds, he is no longer among the players, and his drawing is
    still in [submitted_drawings]. *)
Theorem leave_keeps_departed_drawing :
  let st := run init three_players_bob_submitted in
  let o := snd (leave_room st "ABCAB1" (PlayerIdBody.mk bob_id)) in
  (fun lr => Player.id <$> Room.players (snd lr)) <$> fetch st "ABCAB1" =
    Some [alice_id; bob_id; carol_id] ∧
  (fun lr => SubmittedDrawing.drawer_id <$> Room.submitted_drawings (snd lr))
    <$> fetch st "ABCAB1" = Some [bob_id] ∧
  (fun room => Player.id <$> Room.players room) <$> returned o =
    Some [alice_id; carol_id] ∧
  (fun room => SubmittedDrawing.drawer_id <$> Room.submitted_drawings room)
    <$> returned o = Some [bob_id].
Proof. vm_compute. done. Qed.

(** * Further properties of the handlers *)

(** ** The guarded effect of one step *)

Lemma store_id st l room : heap st !! l = Some room → store l room st = st.
Proof.
  intros H. destruct st as [h db t]. unfold store. simpl in *.
  f_equal. by apply list_insert_id.
Qed.

Lemma bool_decide_ne_false (p q : GamePhase) :
  bool_decide (p ≠ q) = false → p = q.
Proof. intros H. apply bool_decide_eq_false in H. by apply dec_stable in H. Qed.

Lemma join_effect st c uuid d :
  request_effect st (upper c) (fst (join_existing_room st c uuid d)).
Proof.
  unfold join_existing_room.
  destruct (fetch st (upper c)) as [[l room]|] eqn:Hf; [|apply re_same].
  destruct (bool_decide _ && bool_decide _) eqn:Hact; [apply re_same|].
  destruct (Z.leb_spec (Room.max_players room)
              (Z.of_nat (length (Room.players room)))) as [_|Hlt];
    [apply re_same|].
  simpl. eapply re_update; [done|]. by apply ru_join.
Qed.

Lemma leave_effect st c b :
  request_effect st (upper c) (fst (leave_room st c b)).
Proof.
  unfold leave_room.
  destruct (fetch st (upper c)) as [[l room]|] eqn:Hf; [|apply re_same].
  destruct (find _ _) as [p|] eqn:Hfind; [|apply re_same].
  rewrite py_in_str_drawings.
  simpl. fold (remaining (PlayerIdBody.player_id b) (Room.players room)).
  destruct (remaining _ _) as [|q qs] eqn:Hr; simpl.
  - by eapply re_close.
  - eapply re_update; [done|]. rewrite <- Hr. apply ru_leave.
    + by eapply find_player_id.
    + by rewrite Hr.
Qed.

Lemma start_effect st c b rnd now :
  request_effect st (upper c) (fst (start_game st c b rnd now)).
Proof.
  unfold start_game.
  destruct (fetch st (upper c)) as [[l room]|] eqn:Hf; [|apply re_same].
  destruct (negb _); [apply re_same|].
  destruct (bool_decide _) eqn:Hp; [apply re_same|].
  apply bool_decide_ne_false in Hp.
  destruct (Z.ltb_spec (Z.of_nat (length (Room.players room)))
              MIN_PLAYERS_TO_START) as [_|Hge]; [apply re_same|].
  simpl. eapply re_update; [done|]. by apply ru_start.
Qed.

Lemma play_again_effect st c b rnd now :
  request_effect st (upper c) (fst (play_again st c b rnd now)).
Proof.
  unfold play_again.
  destruct (fetch st (upper c)) as [[l room]|] eqn:Hf; [|apply re_same].
  destruct (negb _); [apply re_same|].
  destruct (bool_decide _) eqn:Hp; [apply re_same|].
  apply bool_decide_ne_false in Hp.
  destruct (Z.ltb_spec (Z.of_nat (length (Room.players room)))
              MIN_PLAYERS_TO_START) as [Hlt|Hge]; simpl.
  - eapply re_update; [done|]. by apply ru_lobby.
  - eapply re_update; [done|]. by apply ru_play_again.
Qed.

Lemma submit_effect st c r :
  request_effect st (upper c) (fst (submit_drawing_and_advance_turn st c r)).
Proof.
  unfold submit_drawing_and_advance_turn.
  destruct (fetch st (upper c)) as [[l room]|] eqn:Hf; [|apply re_same].
  destruct (bool_decide _) eqn:Hp; [apply re_same|].
  apply bool_decide_ne_false in Hp.
  destruct (existsb _ _) eqn:He; [apply re_same|].
  simpl. eapply (re_update _ _ _ _ (submitted room r)); [done|].
  apply ru_submit; [done|]. by apply existsb_drawer_false_inv.
Qed.

Lemma judge_effect st c : request_effect st (upper c) (fst (judge_room st c)).
Proof.
  unfold judge_room.
  destruct (fetch st (upper c)) as [[l room]|] eqn:Hf; [|apply re_same].
  destruct (bool_decide _) eqn:Hp; [apply re_same|].
  apply bool_decide_ne_false in Hp. simpl. by eapply re_queue.
Qed.

Lemma get_effect st c now g :
  request_effect st (upper c) (fst (get_room_details st c now g)).
Proof.
  unfold get_room_details.
  destruct (fetch st (upper c)) as [[l room]|] eqn:Hf; [|apply re_same].
  simpl. eapply (re_update _ _ _ _ (polled room now g)); [done|].
  apply ru_get.
Qed.

Lemma request_has_effect st a code :
  addressed a = Some code → request_effect st code (fst (step st a)).
Proof.
  destruct a; simpl; intros [= <-].
  - apply join_effect.
  - apply leave_effect.
  - apply start_effect.
  - apply submit_effect.
  - apply play_again_effect.
  - apply judge_effect.
  - apply get_effect.
Qed.

Lemma step_has_effect st a : step_effect st (fst (step st a)).
Proof.
  destruct (addressed a) as [code|] eqn:Ha.
  { eapply se_request. by apply request_has_effect. }
  destruct a; simpl in Ha; try done; simpl.
  - unfold create_new_room.
    destruct (generate_room_code _ _) as [code|] eqn:Hg; simpl.
    + by eapply se_create.
    + eapply (se_request _ EmptyString). apply re_same.
  - unfold run_background_task.
    destruct (background_tasks st !! i) as [l|] eqn:Ht.
    + destruct (heap st !! l) as [room|] eqn:Hh.
      * unfold store. simpl. by eapply se_task.
      * by eapply se_task_lost.
    + eapply (se_request _ EmptyString). apply re_same.
Qed.

Lemma heap_invariant_guarded (P : Room.t → Prop) :
  (∀ code uuid room_data, P (new_room code uuid room_data)) →
  (∀ r r', room_update r r' → P r → P r') →
  (∀ r, P r → P (Room.set_players [] r)) →
  ∀ st, reachable st → ∀ l r, heap st !! l = Some r → P r.
Proof.
  intros Hc Hs He st Hst. induction Hst as [|st a _ IH] using reachable_ind.
  { intros l r Hl. simpl in Hl. by rewrite lookup_nil in Hl. }
  intros l' r'.
  destruct (step_has_effect st a) as
    [ code st' [ | l r r1 Hf Hru | l r Hf | l r Hf Hp ]
    | tokens code uuid room_data Hg | i l r g Ht Hh | i l Ht Hh ];
    simpl; try apply IH.
  - apply fetch_Some in Hf as [_ Hl].
    destruct (decide (l = l')) as [<-|Hne].
    + rewrite list_lookup_insert_eq; [|by eapply lookup_lt_Some].
      intros [= <-]. eauto.
    + rewrite list_lookup_insert_ne; [apply IH | done].
  - apply fetch_Some in Hf as [_ Hl].
    destruct (decide (l = l')) as [<-|Hne].
    + rewrite list_lookup_insert_eq; [|by eapply lookup_lt_Some].
      intros [= <-]. eauto.
    + rewrite list_lookup_insert_ne; [apply IH | done].
  - intros [H|[_ H]]%lookup_app_Some; [by eapply IH|].
    destruct (l' - length (heap st)) as [|n]; [|by destruct n].
    injection H as <-. apply Hc.
  - destruct (decide (l = l')) as [<-|Hne].
    + rewrite list_lookup_insert_eq; [|by eapply lookup_lt_Some].
      intros [= <-]. eapply Hs; [apply ru_task | eauto].
    + rewrite list_lookup_insert_ne; [apply IH | done].
Qed.

(** ** Room codes *)

Lemma normalise_ascii c :
  code_char (if Ascii.eqb (if Ascii.eqb (upper_ascii c) "_" then "A"%char
                           else upper_ascii c) "-"
             then "B"%char
             else if Ascii.eqb (upper_ascii c) "_" then "A"%char
                  else upper_ascii c).
Proof.
  destruct c as [[] [] [] [] [] [] [] []]; vm_compute;
    (split; [reflexivity | split; discriminate]).
Qed.

Lemma normalise_chars n tok :
  Forall code_char
    (list_ascii_of_string
       (replace "-" "B" (replace "_" "A" (upper (slice_to n tok))))) ∧
  (String.length (replace "-" "B" (replace "_" "A" (upper (slice_to n tok))))
   ≤ n)%nat.
Proof.
  revert tok. induction n as [|n IH]; intros [|c tok]; simpl;
    try (split; [constructor|lia]).
  destruct (IH tok) as [Hc Hl]. split; [|lia].
  constructor; [apply normalise_ascii | done].
Qed.

Lemma upper_fixed s :
  Forall code_char (list_ascii_of_string s) → upper s = s.
Proof.
  induction s as [|c s IH]; simpl; [done|].
  intros [[-> _] Hs]%Forall_cons. by rewrite IH.
Qed.

Lemma generate_room_code_cons tok rest db :
  generate_room_code (tok :: rest) db =
  match db !! normalise tok with
  | None => Some (normalise tok)
  | Some _ => generate_room_code rest db
  end.
Proof. reflexivity. Qed.

Lemma generate_room_code_first tokens db code :
  generate_room_code tokens db = Some code →
  ∃ taken tok rest,
    tokens = taken ++ tok :: rest ∧ code = normalise tok ∧
    Forall (fun t => is_Some (db !! normalise t)) taken.
Proof.
  induction tokens as [|t ts IH]; [done|].
  rewrite generate_room_code_cons.
  destruct (db !! normalise t) as [l|] eqn:Hl.
  - intros (taken & tok & rest & -> & -> & Htaken)%IH.
    exists (t :: taken), tok, rest. split_and!; [done..|].
    constructor; [by eexists | done].
  - intros [= <-]. by exists [], t, ts.
Qed.

Lemma generate_room_code_upper tokens db code :
  generate_room_code tokens db = Some code → upper code = code.
Proof.
  intros (_ & tok & _ & _ & -> & _)%generate_room_code_first.
  apply upper_fixed. apply (normalise_chars ROOM_CODE_LENGTH tok).
Qed.

(** X1. When [generate_room_code] returns a code, it is the normalised form
    of the first token whose normalised form is not a key of [rooms_db]:
    every earlier token collided. The code is not in [rooms_db], has at
    most six characters, none of them "_" or "-", and [upper] leaves it
    unchanged. *)
Theorem generate_room_code_first_free tokens db code :
  generate_room_code tokens db = Some code →
  (∃ taken tok rest,
     tokens = taken ++ tok :: rest ∧ code = normalise tok ∧
     Forall (fun t => is_Some (db !! normalise t)) taken) ∧
  db !! code = None ∧
  (String.length code ≤ ROOM_CODE_LENGTH)%nat ∧
  Forall code_char (list_ascii_of_string code) ∧
  upper code = code.
Proof.
  intros Hg. pose proof (generate_room_code_first _ _ _ Hg) as Hfirst.
  split; [done|]. destruct Hfirst as (_ & tok & _ & _ & -> & _).
  split; [by eapply generate_room_code_fresh|].
  destruct (normalise_chars ROOM_CODE_LENGTH tok) as [Hc Hl].
  split_and!; [done..|]. by apply upper_fixed.
Qed.

Lemma generate_room_code_first_free_witness :
  let tokens := ["abc_-1xyz"; "q-w_e9rt"; "zzzzzzzz"] in
  generate_room_code tokens one_code_taken = Some "QBWAE9" ∧
  (∃ taken tok rest,
     tokens = taken ++ tok :: rest ∧ "QBWAE9" = normalise tok ∧
     Forall (fun t => is_Some (one_code_taken !! normalise t)) taken) ∧
  one_code_taken !! "QBWAE9" = None ∧
  (String.length "QBWAE9" ≤ ROOM_CODE_LENGTH)%nat ∧
  Forall code_char (list_ascii_of_string "QBWAE9") ∧
  upper "QBWAE9" = "QBWAE9".
Proof.
  intros tokens. split; [vm_compute; reflexivity|].
  apply (generate_room_code_first_free tokens one_code_taken "QBWAE9").
  vm_compute. reflexivity.
Defined.

(** ** Fields the updates leave alone *)

Lemma leave_room_finish_frame r pid :
  Room.code (leave_room_finish r pid) = Room.code r ∧
  Room.max_players (leave_room_finish r pid) = Room.max_players r ∧
  Room.round_duration_seconds (leave_room_finish r pid) =
    Room.round_duration_seconds r.
Proof. unfold leave_room_finish. by repeat case_match. Qed.

Lemma submitted_frame r req :
  Room.code (submitted r req) = Room.code r ∧
  Room.players (submitted r req) = Room.players r ∧
  Room.host_id (submitted r req) = Room.host_id r ∧
  Room.max_players (submitted r req) = Room.max_players r ∧
  Room.round_duration_seconds (submitted r req) = Room.round_duration_seconds r ∧
  Room.current_topic (submitted r req) = Room.current_topic r ∧
  Room.round_start_time (submitted r req) = Room.round_start_time r ∧
  Room.judgment_result (submitted r req) = Room.judgment_result r ∧
  Room.submitted_drawings (submitted r req) =
    Room.submitted_drawings r ++ [drawing_of r req] ∧
  (Room.game_phase (submitted r req) = Room.game_phase r ∨
   Room.game_phase (submitted r req) = GAME_OVER).
Proof. unfold submitted. case_match; simpl; split_and!; auto. Qed.

Lemma polled_frame r now g :
  Room.code (polled r now g) = Room.code r ∧
  Room.players (polled r now g) = Room.players r ∧
  Room.host_id (polled r now g) = Room.host_id r ∧
  Room.max_players (polled r now g) = Room.max_players r ∧
  Room.round_duration_seconds (polled r now g) = Room.round_duration_seconds r ∧
  Room.current_topic (polled r now g) = Room.current_topic r ∧
  Room.round_start_time (polled r now g) = Room.round_start_time r ∧
  Room.submitted_drawings (polled r now g) = Room.submitted_drawings r ∧
  (Room.game_phase (polled r now g) = Room.game_phase r ∨
   Room.game_phase r = DRAWING ∧ Room.game_phase (polled r now g) = GAME_OVER).
Proof.
  unfold polled.
  set (r1 := match Room.round_start_time r with Some _ => _ | None => _ end).
  assert (Room.code r1 = Room.code r ∧ Room.players r1 = Room.players r ∧
          Room.host_id r1 = Room.host_id r ∧
          Room.max_players r1 = Room.max_players r ∧
          Room.round_duration_seconds r1 = Room.round_duration_seconds r ∧
          Room.current_topic r1 = Room.current_topic r ∧
          Room.round_start_time r1 = Room.round_start_time r ∧
          Room.submitted_drawings r1 = Room.submitted_drawings r ∧
          (Room.game_phase r1 = Room.game_phase r ∨
           Room.game_phase r = DRAWING ∧ Room.game_phase r1 = GAME_OVER))
    as (H1 & H2 & H3 & H4 & H5 & H6 & H7 & H8 & H9).
  { subst r1. destruct (Room.round_start_time r) as [t|] eqn:Ht;
      [|split_and!; auto].
    destruct (bool_decide (Room.game_phase r = DRAWING)) eqn:Hp; simpl;
      [|split_and!; auto].
    apply bool_decide_eq_true in Hp.
    destruct (elapsed_ge _ _ _); simpl; split_and!; auto. }
  destruct (_ && _); [|by split_and!].
  destruct (run_gemini_judgment_fields r1 g)
    as (-> & -> & -> & -> & -> & -> & _).
  split_and!; try done. unfold run_gemini_judgment. by case_match.
  unfold run_gemini_judgment. by case_match.
  unfold run_gemini_judgment. by case_match.
Qed.

Lemma run_gemini_judgment_frame r g :
  Room.code (run_gemini_judgment r g) = Room.code r ∧
  Room.max_players (run_gemini_judgment r g) = Room.max_players r ∧
  Room.round_duration_seconds (run_gemini_judgment r g) =
    Room.round_duration_seconds r.
Proof. unfold run_gemini_judgment. by case_match. Qed.

Lemma room_update_code r r' : room_update r r' → Room.code r' = Room.code r.
Proof.
  destruct 1; simpl; try done.
  - by destruct (leave_room_finish_frame
                   (Room.set_players (remaining player_id (Room.players r)) r)
                   player_id) as (-> & _).
  - by destruct (submitted_frame r request_data) as (-> & _).
  - by destruct (polled_frame r now result) as (-> & _).
  - by destruct (run_gemini_judgment_frame r result) as (-> & _).
Qed.

(** ** Invariants of the store *)

Lemma store_ok_step st a : store_ok st → store_ok (fst (step st a)).
Proof.
  intros [Hdb Htasks].
  destruct (step_has_effect st a) as
    [ code st' [ | l r r1 Hf Hru | l r Hf | l r Hf Hp ]
    | tokens code uuid room_data Hg | i l r g Ht Hh | i l Ht Hh ];
    [done|..]; split; simpl.
  - intros c l' Hc. destruct (Hdb _ _ Hc) as (r0 & Hl0 & Hcode & Hup).
    apply fetch_Some in Hf as [_ Hl].
    destruct (decide (l = l')) as [<-|Hne].
    + exists r1. rewrite list_lookup_insert_eq by (by eapply lookup_lt_Some).
      simplify_eq. by rewrite (room_update_code _ _ Hru).
    + exists r0. by rewrite list_lookup_insert_ne.
  - by rewrite length_insert.
  - intros c l' [_ Hc]%lookup_delete_Some.
    destruct (Hdb _ _ Hc) as (r0 & Hl0 & Hcode & Hup).
    apply fetch_Some in Hf as [_ Hl].
    destruct (decide (l = l')) as [<-|Hne].
    + eexists. rewrite list_lookup_insert_eq by (by eapply lookup_lt_Some).
      by simplify_eq.
    + exists r0. by rewrite list_lookup_insert_ne.
  - by rewrite length_insert.
  - done.
  - apply Forall_app. split; [done|]. apply Forall_singleton.
    apply fetch_Some in Hf as [_ Hl]. by eapply lookup_lt_Some.
  - intros c l'. destruct (decide (code = c)) as [<-|Hne].
    + rewrite lookup_insert_eq. intros [= <-].
      eexists. split; [by apply list_lookup_middle|]. split; [done|].
      by eapply generate_room_code_upper.
    + rewrite lookup_insert_ne by done. intros Hc.
      destruct (Hdb _ _ Hc) as (r0 & Hl0 & ?). exists r0.
      split; [by apply lookup_app_l_Some | done].
  - rewrite length_app. eapply Forall_impl; [done|]. simpl. lia.
  - intros c l' Hc. destruct (Hdb _ _ Hc) as (r0 & Hl0 & Hcode & Hup).
    destruct (decide (l = l')) as [<-|Hne].
    + eexists. rewrite list_lookup_insert_eq by (by eapply lookup_lt_Some).
      simplify_eq.
      by destruct (run_gemini_judgment_frame r g) as (-> & _).
    + exists r0. by rewrite list_lookup_insert_ne.
  - rewrite length_insert. by apply Forall_delete.
  - done.
  - by apply Forall_delete.
Qed.

Lemma store_ok_reachable st : reachable st → store_ok st.
Proof.
  induction 1 as [|st a _ IH] using reachable_ind.
  - split; [|constructor]. intros code l Hl. simpl in Hl.
    by rewrite lookup_empty in Hl.
  - by apply store_ok_step.
Qed.

(** X2. In every reachable state, a room registered under a code exists,
    has at least one player, carries that code in its [code] field, and the
    code is unchanged by [upper] (so the handlers, which look up
    [room_code.upper()], find it); no two codes lead to the same room. *)
Theorem registered_rooms st code l :
  reachable st → rooms_db st !! code = Some l →
  (∃ room,
     fetch st (upper code) = Some (l, room) ∧
     Room.code room = code ∧ Room.players room ≠ []) ∧
  (∀ code', rooms_db st !! code' = Some l → code' = code).
Proof.
  intros Hst Hdb.
  destruct (store_ok_reachable st Hst) as [Hok _].
  destruct (registry_ok_reachable st Hst) as (Ha & _ & Hinj).
  destruct (Hok _ _ Hdb) as (r & Hl & Hcode & Hup).
  destruct (Ha _ _ Hdb) as (r' & Hl' & Hne & _). simplify_eq.
  split; [|intros code' Hdb'; by eapply Hinj].
  exists r. rewrite Hup. split; [by apply fetch_Some | done].
Qed.

Lemma registered_rooms_witness :
  let st := run init two_players_drawing in
  (∃ room,
     fetch st (upper "ABCAB1") = Some (0%nat, room) ∧
     Room.code room = "ABCAB1" ∧ Room.players room ≠ []) ∧
  (∀ code', rooms_db st !! code' = Some 0%nat → code' = "ABCAB1").
Proof.
  intros st. apply (registered_rooms st "ABCAB1" 0).
  - exists two_players_drawing. reflexivity.
  - vm_compute. reflexivity.
Defined.



(** ** Invariants of room objects, continued *)

Lemma remaining_length pid players :
  (length (remaining pid players) ≤ length players)%nat.
Proof.
  unfold remaining. induction players as [|p ps IH]; simpl; [done|].
  destruct (negb _); simpl; lia.
Qed.

Lemma room_update_limits r r' :
  room_update r r' → room_limits r → room_limits r'.
Proof.
  unfold room_limits.
  destruct 1 as [ p Hact Hlt | pid Hin Hrem | rnd now Hp Hn | rnd now Hp Hn
                | Hp Hn | req Hp Hnin | now g | g ];
    intros (Hmax & Hdur & Hlen); simpl; try done.
  - split_and!; [done..|]. rewrite length_app. simpl. lia.
  - rewrite leave_room_finish_players.
    destruct (leave_room_finish_frame
                (Room.set_players (remaining pid (Room.players r)) r) pid)
      as (_ & -> & ->).
    simpl. split_and!; [done..|].
    pose proof (remaining_length pid (Room.players r)). lia.
  - destruct (submitted_frame r req) as (_ & -> & _ & -> & -> & _). done.
  - destruct (polled_frame r now g) as (_ & -> & _ & -> & -> & _). done.
  - destruct (run_gemini_judgment_fields r g) as (-> & _).
    destruct (run_gemini_judgment_frame r g) as (_ & -> & ->). done.
Qed.

Lemma room_limits_reachable st l room :
  reachable st → heap st !! l = Some room → room_limits room.
Proof.
  intros Hst. revert l room. apply (heap_invariant_guarded room_limits).
  - intros code uuid rd. by split_and!.
  - apply room_update_limits.
  - by intros r (? & ? & ?).
  - done.
Qed.

(** X4. In every reachable state every room object has [max_players] 6 and
    [round_duration_seconds] 100, and never more than six players. *)
Theorem room_never_overfull st l room :
  reachable st → heap st !! l = Some room →
  Room.max_players room = 6%Z ∧ Room.round_duration_seconds room = 100%Z ∧
  (length (Room.players room) ≤ 6)%nat.
Proof.
  intros Hst Hl.
  destruct (room_limits_reachable st l room Hst Hl) as (Hmax & Hdur & Hlen).
  unfold MAX_PLAYERS_PER_ROOM in *. split_and!; [done..|]. lia.
Qed.

Lemma room_never_overfull_witness :
  ∃ room,
    heap (run init three_players_bob_submitted) !! 0%nat = Some room ∧
    Room.max_players room = 6%Z ∧ Room.round_duration_seconds room = 100%Z ∧
    (length (Room.players room) ≤ 6)%nat.
Proof.
  eexists. split; [vm_compute; reflexivity|].
  apply (room_never_overfull (run init three_players_bob_submitted) 0).
  - exists three_players_bob_submitted. reflexivity.
  - vm_compute. reflexivity.
Defined.

Lemma room_update_known_phase r r' :
  room_update r r' → known_phase r → known_phase r'.
Proof.
  unfold known_phase.
  destruct 1 as [ p Hact Hlt | pid Hin Hrem | rnd now Hp Hn | rnd now Hp Hn
                | Hp Hn | req Hp Hnin | now g | g ]; intros Hk; simpl;
    try done.
  - destruct (leave_room_finish_topic
                (Room.set_players (remaining pid (Room.players r)) r) pid)
      as [[-> _]|[-> _]]; done.
  - destruct (submitted_frame r req)
      as (_ & _ & _ & _ & _ & _ & _ & _ & _ & [-> | ->]); [congruence|done].
  - destruct (polled_frame r now g)
      as (_ & _ & _ & _ & _ & _ & _ & _ & [-> | [_ ->]]); done.
  - by destruct (run_gemini_judgment_fields r g) as (_ & _ & -> & _).
Qed.

Lemma known_phase_reachable st l room :
  reachable st → heap st !! l = Some room →
  Room.game_phase room = LOBBY ∨ Room.game_phase room = DRAWING ∨
  Room.game_phase room = GAME_OVER.
Proof.
  intros Hst Hl.
  assert (known_phase room) as Hk.
  { revert Hst l room Hl. apply (heap_invariant_guarded known_phase); try done.
    apply room_update_known_phase. }
  unfold known_phase in Hk. destruct (Room.game_phase room); auto. done.
Qed.

(** X5. No room object is ever in the phase [ROUND_TRANSITION]: in every
    reachable state the phase of a room is lobby, drawing or game_over. *)
Theorem round_transition_unused st l room :
  reachable st → heap st !! l = Some room →
  Room.game_phase room = LOBBY ∨ Room.game_phase room = DRAWING ∨
  Room.game_phase room = GAME_OVER.
Proof.
  intros Hst Hl. by apply (known_phase_reachable st l).
Qed.

Lemma round_transition_unused_witness :
  ∃ room,
    heap (run init round_aborted) !! 0%nat = Some room ∧
    (Room.game_phase room = LOBBY ∨ Room.game_phase room = DRAWING ∨
     Room.game_phase room = GAME_OVER).
Proof.
  eexists. split; [vm_compute; reflexivity|].
  apply (round_transition_unused (run init round_aborted) 0).
  - exists round_aborted. reflexivity.
  - vm_compute. reflexivity.
Defined.

(** *** Topics *)

Lemma _select_new_topic_predefined room rnd :
  _select_new_topic room rnd ∈ PREDEFINED_TOPICS.
Proof.
  unfold _select_new_topic. apply list_elem_of_In, nth_In.
  apply Nat.mod_upper_bound. vm_compute. discriminate.
Qed.

Lemma predefined_topic_nonempty t :
  t ∈ PREDEFINED_TOPICS → String.eqb t EmptyString = false.
Proof.
  intros Hin. apply String.eqb_neq. intros ->.
  apply list_elem_of_In in Hin. simpl in Hin.
  repeat (destruct Hin as [Hin|Hin]; [discriminate Hin|]). done.
Qed.

Lemma room_update_topics r r' :
  room_update r r' → topics_ok r → topics_ok r'.
Proof.
  unfold topics_ok.
  destruct 1 as [ p Hact Hlt | pid Hin Hrem | rnd now Hp Hn | rnd now Hp Hn
                | Hp Hn | req Hp Hnin | now g | g ];
    intros (Hd & Ht & Hs); simpl; try done.
  - rewrite leave_room_finish_submitted. simpl.
    destruct (leave_room_finish_topic
                (Room.set_players (remaining pid (Room.players r)) r) pid)
      as [[-> ->]|[-> ->]]; done.
  - split_and!.
    + intros _. by eexists.
    + intros t [= <-]. split; [apply _select_new_topic_predefined|].
      intros d Hd'. by apply elem_of_nil in Hd'.
    + intros d Hd'. by apply elem_of_nil in Hd'.
  - split_and!.
    + intros _. by eexists.
    + intros t [= <-]. split; [apply _select_new_topic_predefined|].
      intros d Hd'. by apply elem_of_nil in Hd'.
    + intros d Hd'. by apply elem_of_nil in Hd'.
  - split_and!; try done. intros d Hd'. by apply elem_of_nil in Hd'.
  - destruct (Hd Hp) as [t Htopic]. destruct (Ht _ Htopic) as [Hpre Hall].
    assert (SubmittedDrawing.topic (drawing_of r req) = t) as Hnew.
    { unfold drawing_of. simpl. rewrite Htopic. simpl.
      by rewrite (predefined_topic_nonempty _ Hpre). }
    destruct (submitted_frame r req)
      as (_ & _ & _ & _ & _ & -> & _ & _ & -> & _).
    split_and!.
    + intros _. by eexists.
    + intros t' Ht'. simplify_eq. split; [done|].
      intros d [Hd'| ->%list_elem_of_singleton]%elem_of_app; auto.
    + intros d [Hd'| ->%list_elem_of_singleton]%elem_of_app; [auto|].
      by rewrite Hnew.
  - destruct (polled_frame r now g)
      as (_ & _ & _ & _ & _ & -> & _ & -> & Hph).
    split_and!; [|done..]. intros Hp'. apply Hd.
    destruct Hph as [<-|[_ Hg]]; [done|congruence].
  - by destruct (run_gemini_judgment_fields r g)
      as (_ & _ & -> & -> & _ & -> & _).
Qed.

Lemma topics_ok_reachable st l room :
  reachable st → heap st !! l = Some room → topics_ok room.
Proof.
  intros Hst. revert l room.
  apply (heap_invariant_guarded topics_ok); [| |done|done].
  - intros code uuid rd. split_and!; simpl; try done;
      intros d Hd; by apply elem_of_nil in Hd.
  - apply room_update_topics.
Qed.

(** X6. In every reachable state the topic of a room, when set, is one of
    [PREDEFINED_TOPICS] and every drawing submitted to the room records
    exactly that topic; a room in the drawing phase has a topic. *)
Theorem drawings_share_the_topic st l room :
  reachable st → heap st !! l = Some room →
  (Room.game_phase room = DRAWING → is_Some (Room.current_topic room)) ∧
  (∀ t, Room.current_topic room = Some t →
     t ∈ PREDEFINED_TOPICS ∧
     ∀ d, d ∈ Room.submitted_drawings room → SubmittedDrawing.topic d = t).
Proof.
  intros Hst Hl. by destruct (topics_ok_reachable st l room Hst Hl) as (? & ? & _).
Qed.

Lemma drawings_share_the_topic_witness :
  ∃ room,
    heap (run init round_judged) !! 0%nat = Some room ∧
    (Room.game_phase room = DRAWING → is_Some (Room.current_topic room)) ∧
    (∀ t, Room.current_topic room = Some t →
       t ∈ PREDEFINED_TOPICS ∧
       ∀ d, d ∈ Room.submitted_drawings room → SubmittedDrawing.topic d = t).
Proof.
  eexists. split; [vm_compute; reflexivity|].
  apply (drawings_share_the_topic (run init round_judged) 0).
  - exists round_judged. reflexivity.
  - vm_compute. reflexivity.
Defined.

(** X7. The fallback "No Topic" of [submit_drawing_and_advance_turn] is
    never used: in every reachable state the topic recorded in a submitted
    drawing is one of [PREDEFINED_TOPICS], also after a leave has cleared
    the room's own topic. *)
Theorem no_topic_fallback_unused st l room d :
  reachable st → heap st !! l = Some room →
  d ∈ Room.submitted_drawings room →
  SubmittedDrawing.topic d ∈ PREDEFINED_TOPICS ∧
  SubmittedDrawing.topic d ≠ "No Topic".
Proof.
  intros Hst Hl Hd.
  destruct (topics_ok_reachable st l room Hst Hl) as (_ & _ & Hs).
  specialize (Hs d Hd). split; [done|]. intros Heq. rewrite Heq in Hs.
  apply list_elem_of_In in Hs. simpl in Hs.
  repeat (destruct Hs as [Hs|Hs]; [discriminate Hs|]). done.
Qed.

Lemma no_topic_fallback_unused_witness :
  let d := SubmittedDrawing.mk alice_id "Alice" "Dog" "aGk=" in
  SubmittedDrawing.topic d ∈ PREDEFINED_TOPICS ∧
  SubmittedDrawing.topic d ≠ "No Topic".
Proof.
  intros d.
  eapply (no_topic_fallback_unused (run init round_aborted) 0 _ d).
  - exists round_aborted. reflexivity.
  - vm_compute. reflexivity.
  - vm_compute. left.
Defined.

(** ** Creating a room *)



(** X9. Creating a room leaves every room that is already registered
    where it was and as it was. *)
Theorem create_keeps_rooms st tokens uuid room_data st' o code l room :
  create_new_room st tokens uuid room_data = Some (st', o) →
  fetch st code = Some (l, room) →
  fetch st' code = Some (l, room).
Proof.
  unfold create_new_room.
  destruct (generate_room_code _ _) as [c|] eqn:Hg; [|done].
  intros [= <- _] [Hdb Hl]%fetch_Some. apply fetch_Some. simpl.
  apply generate_room_code_fresh in Hg.
  rewrite lookup_insert_ne by (intros ->; congruence).
  split; [done|]. by apply lookup_app_l_Some.
Qed.

Lemma create_keeps_rooms_witness :
  let st := run init two_players_drawing in
  ∃ st' o room,
    create_new_room st ["abc_-1xyz"; "q-w_e9rt"] carol_id
      (RoomCreate.mk None "Carol") = Some (st', o) ∧
    fetch st "ABCAB1" = Some (0%nat, room) ∧
    fetch st' "ABCAB1" = Some (0%nat, room).
Proof.
  intros st. eexists _, _, _.
  split; [vm_compute; reflexivity|].
  split; [vm_compute; reflexivity|].
  eapply (create_keeps_rooms st ["abc_-1xyz"; "q-w_e9rt"] carol_id
            (RoomCreate.mk None "Carol")).
  - vm_compute. reflexivity.
  - vm_compute. reflexivity.
Defined.

(** ** One room at a time *)



(** ** Leaving *)

(** X11. When the only player of a room leaves, [leave_room] raises the
    200 "Room closed" exception and unregisters the room: the code is no
    longer found, a later [get] on it answers 404, and every other code of
    [rooms_db] is untouched. *)
Theorem last_leave_closes_room st code body l room p :
  fetch st (upper code) = Some (l, room) →
  Room.players room = [p] →
  Player.id p = PlayerIdBody.player_id body →
  ∃ st',
    leave_room st code body =
      (st', Raise (mkHTTPException HTTP_200_OK
                     "Room closed as last player left.")) ∧
    fetch st' (upper code) = None ∧
    (∀ now result, get_room_details st' code now result = (st', not_found)) ∧
    (∀ code', code' ≠ upper code →
       rooms_db st' !! code' = rooms_db st !! code').
Proof.
  intros Hf Hp Hid. unfold leave_room. rewrite Hf, Hp. simpl.
  rewrite Hid, String.eqb_refl. simpl. eexists. split; [reflexivity|].
  assert (∀ h t, fetch (mkState h (delete (upper code) (rooms_db st)) t)
                   (upper code) = None) as Hnone.
  { intros h t. unfold fetch. simpl. by rewrite lookup_delete_eq. }
  split; [apply Hnone|]. split.
  - intros now result. unfold get_room_details. by rewrite Hnone.
  - intros code' Hne. simpl. by rewrite lookup_delete_ne.
Qed.

Lemma last_leave_closes_room_witness :
  let st := run init round_aborted in
  ∃ st',
    leave_room st "abcab1" (PlayerIdBody.mk alice_id) =
      (st', Raise (mkHTTPException HTTP_200_OK
                     "Room closed as last player left.")) ∧
    fetch st' (upper "abcab1") = None ∧
    (∀ now result, get_room_details st' "abcab1" now result = (st', not_found)) ∧
    (∀ code', code' ≠ upper "abcab1" →
       rooms_db st' !! code' = rooms_db st !! code').
Proof.
  intros st.
  eapply (last_leave_closes_room st "abcab1" (PlayerIdBody.mk alice_id) 0 _
            (Player.mk alice_id "Alice")).
  - vm_compute. reflexivity.
  - reflexivity.
  - reflexivity.
Defined.

(** X12. A leave with an id that no player of the room has is not an
    error: the room is returned as it is and the state is unchanged. *)
Theorem leave_by_stranger_is_noop st code body l room :
  fetch st (upper code) = Some (l, room) →
  PlayerIdBody.player_id body ∉ Player.id <$> Room.players room →
  leave_room st code body = (st, Return room).
Proof.
  intros Hf Hnin. unfold leave_room. rewrite Hf.
  destruct (find _ _) as [p|] eqn:Hfind; [|done].
  destruct Hnin. by eapply find_player_id.
Qed.

Lemma leave_by_stranger_is_noop_witness :
  let st := run init two_players_drawing in
  ∃ room,
    fetch st (upper "ABCAB1") = Some (0%nat, room) ∧
    leave_room st "ABCAB1" (PlayerIdBody.mk mallory_id) = (st, Return room).
Proof.
  intros st. eexists. split; [vm_compute; reflexivity|].
  apply (leave_by_stranger_is_noop st "ABCAB1" (PlayerIdBody.mk mallory_id) 0).
  - vm_compute. reflexivity.
  - vm_compute. intros H. apply list_elem_of_In in H. simpl in H.
    destruct H as [H|[H|[]]]; discriminate H.
Defined.

Lemma leave_room_finish_handover r pid :
  ∃ r1,
    leave_room_finish r pid =
      (if active_phase (Room.game_phase r1)
          && (Z.of_nat (length (Room.players r1)) <? MIN_PLAYERS_TO_START)%Z
       then Room.set_current_topic None (Room.set_game_phase GAME_OVER r1)
       else r1) ∧
    Room.game_phase r1 = Room.game_phase r ∧
    Room.players r1 = Room.players r ∧
    Room.current_topic r1 = Room.current_topic r.
Proof.
  unfold leave_room_finish. eexists. split; [reflexivity|].
  by repeat case_match.
Qed.

Lemma leave_room_finish_phase r pid :
  Room.game_phase (leave_room_finish r pid) =
  if active_phase (Room.game_phase r)
     && (Z.of_nat (length (Room.players r)) <? MIN_PLAYERS_TO_START)%Z
  then GAME_OVER else Room.game_phase r.
Proof.
  destruct (leave_room_finish_handover r pid) as (r1 & -> & Hp & Hn & _).
  rewrite Hp, Hn. by destruct (_ && _).
Qed.

Lemma leave_room_finish_current_topic r pid :
  Room.current_topic (leave_room_finish r pid) =
  if active_phase (Room.game_phase r)
     && (Z.of_nat (length (Room.players r)) <? MIN_PLAYERS_TO_START)%Z
  then None else Room.current_topic r.
Proof.
  destruct (leave_room_finish_handover r pid) as (r1 & -> & Hp & Hn & Ht).
  rewrite Hp, Hn. by destruct (_ && _).
Qed.

(** X13. When a player leaves a room in the drawing phase and other players
    remain, the room is returned with the remaining players, and with its
    submissions and start time as they were. If fewer than two players
    remain the round is ended: phase game_over and no topic. If two or more
    remain, phase and topic are unchanged, however many of the remaining
    players have already submitted. *)
Theorem leave_during_round st code body l room :
  fetch st (upper code) = Some (l, room) →
  Room.game_phase room = DRAWING →
  PlayerIdBody.player_id body ∈ Player.id <$> Room.players room →
  remaining (PlayerIdBody.player_id body) (Room.players room) ≠ [] →
  ∃ room',
    leave_room st code body = (store l room' st, Return room') ∧
    Room.players room' =
      remaining (PlayerIdBody.player_id body) (Room.players room) ∧
    Room.submitted_drawings room' = Room.submitted_drawings room ∧
    Room.round_start_time room' = Room.round_start_time room ∧
    ((length (Room.players room') < 2)%nat →
       Room.game_phase room' = GAME_OVER ∧ Room.current_topic room' = None) ∧
    ((2 ≤ length (Room.players room'))%nat →
       Room.game_phase room' = DRAWING ∧
       Room.current_topic room' = Room.current_topic room).
Proof.
  intros Hf Hp Hin Hrem. unfold leave_room. rewrite Hf.
  destruct (find_player_member _ _ Hin) as [p ->].
  rewrite py_in_str_drawings. simpl.
  fold (remaining (PlayerIdBody.player_id body) (Room.players room)).
  destruct (remaining _ _) as [|q qs] eqn:Hr; [done|]. rewrite <- Hr.
  eexists. split; [reflexivity|].
  rewrite leave_room_finish_players, leave_room_finish_submitted,
    leave_room_finish_start_time, leave_room_finish_phase,
    leave_room_finish_current_topic.
  simpl. rewrite Hp. simpl. unfold MIN_PLAYERS_TO_START.
  split_and!; try done.
  - intros Hlt. rewrite (proj2 (Z.ltb_lt _ _)) by lia. done.
  - intros Hge. rewrite (proj2 (Z.ltb_ge _ _)) by lia. done.
Qed.

Lemma leave_during_round_witness :
  let st := run init three_players_bob_submitted in
  let body := PlayerIdBody.mk carol_id in
  ∃ room',
    leave_room st "ABCAB1" body = (store 0 room' st, Return room') ∧
    (Player.id <$> Room.players room') = [alice_id; bob_id] ∧
    length (Room.submitted_drawings room') = 1%nat ∧
    Room.game_phase room' = DRAWING.
Proof.
  intros st body.
  edestruct (leave_during_round st "ABCAB1" body 0)
    as (room' & H1 & H2 & H3 & H4 & H5 & H6).
  - vm_compute. reflexivity.
  - reflexivity.
  - vm_compute. right. right. left.
  - vm_compute. discriminate.
  - exists room'. split; [exact H1|].
    split; [rewrite H2; vm_compute; reflexivity|].
    split; [rewrite H3; vm_compute; reflexivity|].
    apply H6. rewrite H2. vm_compute. lia.
Defined.

Lemma room_update_round_has_players r r' :
  room_update r r' → round_has_players r → round_has_players r'.
Proof.
  unfold round_has_players.
  destruct 1 as [ p Hact Hlt | pid Hin Hrem | rnd now Hp Hn | rnd now Hp Hn
                | Hp Hn | req Hp Hnin | now g | g ]; intros Hr; simpl;
    try done.
  - intros Hp. rewrite Hp in Hact. done.
  - rewrite leave_room_finish_players, leave_room_finish_phase. simpl.
    destruct (active_phase _) eqn:Hact; simpl;
      [|intros Hp; by rewrite Hp in Hact].
    unfold MIN_PLAYERS_TO_START.
    destruct (Z.ltb_spec (Z.of_nat (length (remaining pid (Room.players r)))) 2);
      [done|]. intros _. right. lia.
  - intros _. right. unfold MIN_PLAYERS_TO_START in Hn. lia.
  - intros _. right. unfold MIN_PLAYERS_TO_START in Hn. lia.
  - destruct (submitted_frame r req) as (_ & -> & _). intros _. auto.
  - destruct (polled_frame r now g)
      as (_ & -> & _ & _ & _ & _ & _ & _ & [-> | [_ ->]]); done.
  - by destruct (run_gemini_judgment_fields r g) as (-> & _ & -> & _).
Qed.

(** X14. In every reachable state a registered room in the drawing phase
    has at least two players. *)
Theorem round_has_two_players st code l room :
  reachable st → fetch st code = Some (l, room) →
  Room.game_phase room = DRAWING →
  (2 ≤ length (Room.players room))%nat.
Proof.
  intros Hst [Hdb Hl]%fetch_Some Hp.
  destruct (registry_ok_reachable st Hst) as (Ha & _).
  destruct (Ha _ _ Hdb) as (r0 & Hl0 & Hne & _).
  rewrite Hl in Hl0. injection Hl0 as <-.
  assert (round_has_players room) as Hr.
  { eapply (heap_invariant_guarded round_has_players);
      [| |  | exact Hst | exact Hl].
    - by intros c u rd.
    - apply room_update_round_has_players.
    - intros r _ _. by left. }
  by destruct (Hr Hp).
Qed.

Lemma round_has_two_players_witness :
  ∃ room,
    fetch (run init alice_submitted) "ABCAB1" = Some (0%nat, room) ∧
    (2 ≤ length (Room.players room))%nat.
Proof.
  eexists. split; [vm_compute; reflexivity|].
  apply (round_has_two_players (run init alice_submitted) "ABCAB1" 0).
  - exists alice_submitted. reflexivity.
  - vm_compute. reflexivity.
  - reflexivity.
Defined.

(** ** Joining *)

(** X15. In a reachable state a join to a registered room is decided by the
    phase and by the number six alone: during the drawing phase it is
    refused with 403 "Cannot join an active game."; otherwise, with six
    players it is refused with 403 "Room is full", and with fewer the new
    player is appended after the existing ones and nothing else in the
    room changes. *)
Theorem join_until_six st code uuid join_data l room :
  reachable st → fetch st (upper code) = Some (l, room) →
  (Room.game_phase room = DRAWING →
     join_existing_room st code uuid join_data =
       (st, Raise (mkHTTPException HTTP_403_FORBIDDEN
                     "Cannot join an active game."))) ∧
  (Room.game_phase room ≠ DRAWING → length (Room.players room) = 6%nat →
     join_existing_room st code uuid join_data =
       (st, Raise (mkHTTPException HTTP_403_FORBIDDEN "Room is full"))) ∧
  (Room.game_phase room ≠ DRAWING → length (Room.players room) ≠ 6%nat →
     join_existing_room st code uuid join_data =
       (store l (Room.set_players
                   (Room.players room
                      ++ [Player.mk uuid (RoomJoin.player_name join_data)])
                   room) st,
        Return (Room.set_players
                  (Room.players room
                     ++ [Player.mk uuid (RoomJoin.player_name join_data)])
                  room))).
Proof.
  intros Hst Hf. pose proof Hf as [_ Hl]%fetch_Some.
  destruct (room_limits_reachable st l room Hst Hl) as (Hmax & _ & Hlen).
  unfold MAX_PLAYERS_PER_ROOM in Hmax, Hlen.
  pose proof (known_phase_reachable st l room Hst Hl) as Hph.
  unfold join_existing_room. rewrite Hf, Hmax.
  split_and!.
  - intros ->. done.
  - intros Hnd Hsix. rewrite Hsix.
    destruct Hph as [Hp|[Hp|Hp]]; [|done|]; rewrite Hp; reflexivity.
  - intros Hnd Hsix.
    destruct (Z.leb_spec 6 (Z.of_nat (length (Room.players room)))); [lia|].
    destruct Hph as [Hp|[Hp|Hp]]; [|done|]; rewrite Hp; reflexivity.
Qed.

Lemma join_until_six_witness :
  let st := run init two_rooms in
  ∃ room,
    fetch st (upper "qbwae9") = Some (1%nat, room) ∧
    join_existing_room st "qbwae9" bob_id (RoomJoin.mk "Bob") =
      (store 1 (Room.set_players
                  (Room.players room ++ [Player.mk bob_id "Bob"]) room) st,
       Return (Room.set_players
                 (Room.players room ++ [Player.mk bob_id "Bob"]) room)).
Proof.
  intros st. eexists. split; [vm_compute; reflexivity|].
  edestruct (join_until_six st "qbwae9" bob_id (RoomJoin.mk "Bob") 1)
    as (_ & _ & H).
  - exists two_rooms. reflexivity.
  - vm_compute. reflexivity.
  - apply H; vm_compute; discriminate.
Defined.

(** ** Reading a room *)

(** X16. A [get] changes nothing and returns the stored room when nothing
    is due: the room is not in the drawing phase past its deadline, and it
    is not a game_over room without a judgment. In particular a round is
    not ended before [round_duration_seconds] have elapsed. *)
Theorem get_when_nothing_is_due st code now result l room :
  fetch st (upper code) = Some (l, room) →
  (Room.game_phase room = DRAWING →
   ∀ start, Room.round_start_time room = Some start →
            (now - start < Room.round_duration_seconds room * 1000000)%Z) →
  (Room.game_phase room = GAME_OVER → is_Some (Room.judgment_result room)) →
  get_room_details st code now result = (st, Return room).
Proof.
  intros Hf Hearly Hjudged. unfold get_room_details. rewrite Hf.
  assert (match Room.round_start_time room with
          | Some start =>
              if bool_decide (Room.game_phase room = DRAWING)
                 && elapsed_ge now start (Room.round_duration_seconds room)
              then Room.set_game_phase GAME_OVER room else room
          | None => room
          end = room) as ->.
  { destruct (Room.round_start_time room) as [start|] eqn:Hs; [|done].
    destruct (bool_decide (Room.game_phase room = DRAWING)) eqn:Hp; [|done].
    apply bool_decide_eq_true in Hp. specialize (Hearly Hp start eq_refl).
    unfold elapsed_ge. simpl. by rewrite (proj2 (Z.leb_gt _ _)) by lia. }
  assert (bool_decide (Room.game_phase room = GAME_OVER)
          && bool_decide (Room.judgment_result room = None) = false) as ->.
  { destruct (bool_decide (Room.game_phase room = GAME_OVER)) eqn:Hp; [|done].
    apply bool_decide_eq_true in Hp. destruct (Hjudged Hp) as [j ->]. done. }
  apply fetch_Some in Hf as [_ Hl]. by rewrite store_id.
Qed.

Lemma get_when_nothing_is_due_witness :
  let st := run init two_players_drawing in
  ∃ room,
    fetch st (upper "ABCAB1") = Some (0%nat, room) ∧
    get_room_details st "ABCAB1" 100999999 verdict_alice = (st, Return room).
Proof.
  intros st. eexists. split; [vm_compute; reflexivity|].
  apply (get_when_nothing_is_due st "ABCAB1" 100999999 verdict_alice 0).
  - vm_compute. reflexivity.
  - intros _ start Hs. cbn in Hs. injection Hs as <-. reflexivity.
  - intros Hp. cbn in Hp. discriminate Hp.
Defined.

Lemma polled_idem room now g g' :
  polled (polled room now g) now g' = polled room now g.
Proof.
  destruct room as [nm cd host ps mx ph topic start dur subs jr].
  unfold polled. simpl.
  destruct start as [t|], ph, jr as [j|], subs as [|d ds]; simpl;
    try reflexivity;
    destruct (elapsed_ge now t dur) eqn:He; simpl; rewrite ?He; simpl;
    reflexivity.
Qed.

(** X17. A [get] repeated at the same instant returns the same room and
    leaves the state of the first [get], whatever the judge would answer
    the second time: on the read path a judgment is computed once. *)
Theorem get_twice st code now result result' st1 o :
  get_room_details st code now result = (st1, o) →
  get_room_details st1 code now result' = (st1, o).
Proof.
  unfold get_room_details.
  destruct (fetch st (upper code)) as [[l room]|] eqn:Hf.
  - fold (polled room now result). intros [= <- <-].
    rewrite (fetch_store _ _ _ _ _ Hf). fold (polled (polled room now result) now result').
    rewrite polled_idem. f_equal. unfold store. simpl. f_equal.
    apply list_insert_insert_eq.
  - intros [= <- <-]. by rewrite Hf.
Qed.

Lemma get_twice_witness :
  let st := run init (alice_submitted
                        ++ [ Submit "ABCAB1" (SubmitDrawingRequest.mk bob_id "Ym9i") ]) in
  let st1 := fst (get_room_details st "ABCAB1" 5000000 verdict_alice) in
  let o := snd (get_room_details st "ABCAB1" 5000000 verdict_alice) in
  get_room_details st1 "ABCAB1" 5000000 verdict_unavailable = (st1, o).
Proof.
  intros st st1 o.
  apply (get_twice st "ABCAB1" 5000000 verdict_alice verdict_unavailable).
  vm_compute. reflexivity.
Defined.

(** X18. Whenever [get] returns a room in phase game_over, that room has a
    judgment. *)
Theorem get_returns_judgment st code now result st' room' :
  get_room_details st code now result = (st', Return room') →
  Room.game_phase room' = GAME_OVER →
  is_Some (Room.judgment_result room').
Proof.
  unfold get_room_details.
  destruct (fetch st (upper code)) as [[l room]|] eqn:Hf; [|done].
  intros [= _ <-].
  match goal with
  | |- Room.game_phase (if ?b then run_gemini_judgment ?r1 _ else _) = _ → _ =>
      destruct (bool_decide (Room.game_phase r1 = GAME_OVER)) eqn:Hp;
      destruct (Room.judgment_result r1) as [j|] eqn:Hj; simpl
  end.
  - intros _. by eexists.
  - intros _. by destruct (run_gemini_judgment_fields
                             (match Room.round_start_time room with
                              | Some start =>
                                  if bool_decide (Room.game_phase room = DRAWING)
                                     && elapsed_ge now start
                                          (Room.round_duration_seconds room)
                                  then Room.set_game_phase GAME_OVER room
                                  else room
                              | None => room
                              end) result) as (_ & _ & _ & _ & _ & _ & ?).
  - intros Hg. apply bool_decide_eq_false in Hp. done.
  - intros Hg. apply bool_decide_eq_false in Hp. done.
Qed.

Lemma get_returns_judgment_witness :
  let st := run init two_players_drawing in
  ∃ st' room',
    get_room_details st "ABCAB1" 101000000 verdict_alice = (st', Return room') ∧
    Room.game_phase room' = GAME_OVER ∧
    Room.judgment_result room' =
      Some (Judgment.mk "No drawings to judge." EmptyString EmptyString).
Proof.
  intros st. eexists _, _. split; [vm_compute; reflexivity|].
  split; [reflexivity|].
  edestruct (get_returns_judgment st "ABCAB1" 101000000 verdict_alice)
    as [j Hj].
  - vm_compute. reflexivity.
  - reflexivity.
  - reflexivity.
Defined.

(** ** Lookups by first match *)

Lemma find_first {A} (f : A → bool) (l : list A) :
  match find f l with
  | Some x =>
      ∃ before after,
        l = before ++ x :: after ∧ f x = true ∧
        Forall (fun y => f y = false) before
  | None => Forall (fun y => f y = false) l
  end.
Proof.
  induction l as [|a l IH]; simpl; [constructor|].
  destruct (f a) eqn:Ha.
  - by exists [], l.
  - destruct (find f l) as [x|].
    + destruct IH as (before & after & -> & Hx & Hb).
      exists (a :: before), after. split_and!; [done..|]. by constructor.
    + by constructor.
Qed.

(** X19. [get_player_name_by_id] returns nothing exactly when no player of
    the room has the id; otherwise it returns the name of the first player
    in the list with that id. *)
Theorem get_player_name_by_id_first room player_id :
  match get_player_name_by_id room player_id with
  | Some name =>
      ∃ before p after,
        Room.players room = before ++ p :: after ∧
        Player.id p = player_id ∧ Player.name p = name ∧
        player_id ∉ Player.id <$> before
  | None => player_id ∉ Player.id <$> Room.players room
  end.
Proof.
  unfold get_player_name_by_id.
  pose proof (find_first (fun player => String.eqb (Player.id player) player_id)
                (Room.players room)) as H.
  assert (∀ ps, Forall (fun y => String.eqb (Player.id y) player_id = false) ps →
                player_id ∉ Player.id <$> ps) as Hnone.
  { intros ps Hall (p & -> & Hp)%list_elem_of_fmap.
    rewrite Forall_forall in Hall. specialize (Hall _ Hp). simpl in Hall.
    by rewrite String.eqb_refl in Hall. }
  destruct (find _ _) as [p|]; simpl; [|by apply Hnone].
  destruct H as (before & after & Hl & Hp & Hb).
  exists before, p, after. split_and!; [done| |done|by apply Hnone].
  by apply String.eqb_eq.
Qed.

(** ** Judgment *)

Lemma winner_is_first_match_aux room result :
  ∃ j,
    Room.judgment_result (run_gemini_judgment room result) = Some j ∧
    (Room.submitted_drawings room = [] →
       j = Judgment.mk "No drawings to judge." EmptyString EmptyString) ∧
    (Room.submitted_drawings room ≠ [] →
       Judgment.summary j = GeminiResult.summary result ∧
       Judgment.winner_name j = GeminiResult.winner_name result ∧
       ((Judgment.winner_id j = EmptyString ∧
         GeminiResult.winner_name result
           ∉ SubmittedDrawing.drawer_name <$> Room.submitted_drawings room) ∨
        (∃ before d after,
           Room.submitted_drawings room = before ++ d :: after ∧
           SubmittedDrawing.drawer_name d = GeminiResult.winner_name result ∧
           (GeminiResult.winner_name result
              ∉ SubmittedDrawing.drawer_name <$> before) ∧
           Judgment.winner_id j = SubmittedDrawing.drawer_id d))).
Proof.
  unfold run_gemini_judgment.
  destruct (Room.submitted_drawings room) as [|d0 ds] eqn:Hs; cbv beta iota.
  { eexists. split; [reflexivity|]. split; done. }
  eexists. split; [reflexivity|]. split; [done|]. intros _.
  cbv beta iota delta [Judgment.summary Judgment.winner_name Judgment.winner_id].
  split; [done|]. split; [done|].
  pose proof (find_first
                (fun d => String.eqb (SubmittedDrawing.drawer_name d)
                            (GeminiResult.winner_name result)) (d0 :: ds)) as H.
  assert (∀ l, Forall (fun y => String.eqb (SubmittedDrawing.drawer_name y)
                                  (GeminiResult.winner_name result) = false) l →
               GeminiResult.winner_name result
                 ∉ SubmittedDrawing.drawer_name <$> l) as Hnone.
  { intros l Hall (d & Hd & Hin)%list_elem_of_fmap.
    rewrite Forall_forall in Hall. specialize (Hall _ Hin). simpl in Hall.
    rewrite <- Hd, String.eqb_refl in Hall. done. }
  destruct (find _ (d0 :: ds)) as [d|].
  - destruct H as (before & after & Hl & Hd & Hb). right.
    exists before, d, after. split_and!; [done| |by apply Hnone|done].
    by apply String.eqb_eq.
  - left. split; [done|]. by apply Hnone.
Qed.

(** X20. [run_gemini_judgment] always stores a judgment. Without drawings
    it is the fixed "No drawings to judge." with no winner, whatever the
    judge's result. With drawings, summary and winner name are the judge's,
    and the winner id is the [drawer_id] of the first drawing whose
    [drawer_name] equals the winner name, or empty when no drawing has
    that name. *)
Theorem winner_is_first_match room result :
  ∃ j,
    Room.judgment_result (run_gemini_judgment room result) = Some j ∧
    (Room.submitted_drawings room = [] →
       j = Judgment.mk "No drawings to judge." EmptyString EmptyString) ∧
    (Room.submitted_drawings room ≠ [] →
       Judgment.summary j = GeminiResult.summary result ∧
       Judgment.winner_name j = GeminiResult.winner_name result ∧
       ((Judgment.winner_id j = EmptyString ∧
         GeminiResult.winner_name result
           ∉ SubmittedDrawing.drawer_name <$> Room.submitted_drawings room) ∨
        (∃ before d after,
           Room.submitted_drawings room = before ++ d :: after ∧
           SubmittedDrawing.drawer_name d = GeminiResult.winner_name result ∧
           (GeminiResult.winner_name result
              ∉ SubmittedDrawing.drawer_name <$> before) ∧
           Judgment.winner_id j = SubmittedDrawing.drawer_id d))).
Proof. apply winner_is_first_match_aux. Qed.

(** X21. [judge_room] by itself changes no room and no registration. It
    returns the room only if the room is in phase game_over, exactly as it
    is stored at that moment, and then queues one task for that room
    object; on any error the whole state is unchanged. *)
Theorem judge_room_only_queues st code st' o :
  judge_room st code = (st', o) →
  heap st' = heap st ∧ rooms_db st' = rooms_db st ∧
  match o with
  | Return room =>
      ∃ l, fetch st (upper code) = Some (l, room) ∧
           Room.game_phase room = GAME_OVER ∧
           background_tasks st' = background_tasks st ++ [l]
  | Raise _ => st' = st
  end.
Proof.
  unfold judge_room.
  destruct (fetch st (upper code)) as [[l room]|] eqn:Hf;
    [|by intros [= <- <-]].
  destruct (bool_decide _) eqn:Hp; [by intros [= <- <-]|].
  apply bool_decide_ne_false in Hp. intros [= <- <-]. simpl.
  split_and!; [done..|]. by exists l.
Qed.

Lemma judge_room_only_queues_witness :
  let st := run init round_judged in
  let st' := fst (judge_room st "ABCAB1") in
  heap st' = heap st ∧ rooms_db st' = rooms_db st ∧
  match snd (judge_room st "ABCAB1") with
  | Return room =>
      ∃ l, fetch st (upper "ABCAB1") = Some (l, room) ∧
           Room.game_phase room = GAME_OVER ∧
           background_tasks st' = background_tasks st ++ [l]
  | Raise _ => st' = st
  end.
Proof.
  intros st st'. apply (judge_room_only_queues st "ABCAB1").
  vm_compute. reflexivity.
Defined.

(** X22. A background task whose room object is no longer registered
    (the room was closed after the task was queued) changes no registered
    room and does not bring the room back: every code resolves after the
    task exactly as before. *)
Theorem task_for_closed_room_is_discarded st i l result :
  background_tasks st !! i = Some l →
  (∀ code, rooms_db st !! code ≠ Some l) →
  ∀ code, fetch (run_background_task st i result) code = fetch st code.
Proof.
  intros Ht Hclosed code. unfold run_background_task. rewrite Ht.
  destruct (heap st !! l) as [room|] eqn:Hl; [|done].
  unfold fetch. simpl.
  destruct (rooms_db st !! code) as [l'|] eqn:Hdb; [|done].
  rewrite list_lookup_insert_ne; [done|]. intros <-. by eapply Hclosed.
Qed.

Lemma task_for_closed_room_is_discarded_witness :
  let st := run init closed_before_judgment in
  background_tasks st = [0%nat] ∧
  ∀ code,
    fetch (run_background_task st 0 verdict_alice) code = fetch st code.
Proof.
  intros st. split; [vm_compute; reflexivity|].
  apply (task_for_closed_room_is_discarded st 0 0 verdict_alice).
  - vm_compute. reflexivity.
  - intros code.
    assert (rooms_db st = ∅) as -> by (vm_compute; reflexivity).
    by rewrite lookup_empty.
Defined.



(** ** The judge's reply *)

Lemma append_nil_r s : s +:+ EmptyString = s.
Proof.
  induction s as [|c s IH]; [done|].
  change (String c (s +:+ EmptyString) = String c s). by rewrite IH.
Qed.

Lemma append_assoc s1 s2 s3 : (s1 +:+ s2) +:+ s3 = s1 +:+ (s2 +:+ s3).
Proof.
  induction s1 as [|c s1 IH]; [done|].
  change (String c ((s1 +:+ s2) +:+ s3) = String c (s1 +:+ (s2 +:+ s3))).
  by rewrite IH.
Qed.

Lemma single_line_cons c s :
  single_line (String c s) = true →
  is_line_boundary c = false ∧ single_line s = true.
Proof.
  unfold single_line. simpl. intros [Hc Hs]%andb_true_iff.
  split; [by apply negb_true_iff | done].
Qed.

Lemma not_boundary_not_cr c :
  is_line_boundary c = false → Ascii.eqb c "013" = false.
Proof.
  intros Hc. destruct (Ascii.eqb_spec c "013") as [->|]; [|done].
  vm_compute in Hc. discriminate Hc.
Qed.

Lemma splitlines_from_line line l rest :
  single_line l = true →
  splitlines_from line (l +:+ newline +:+ rest) =
    (line +:+ l) :: splitlines_from EmptyString rest.
Proof.
  revert line. induction l as [|c l IH]; intros line Hl.
  - simpl. by rewrite append_nil_r.
  - apply single_line_cons in Hl as [Hc Hl]. simpl.
    rewrite (not_boundary_not_cr _ Hc), Hc, IH by done.
    by rewrite append_assoc.
Qed.

Lemma splitlines_unlines lines :
  forallb single_line lines = true → splitlines (unlines lines) = lines.
Proof.
  unfold splitlines. induction lines as [|l ls IH]; [done|].
  simpl. intros [Hl Hls]%andb_true_iff.
  by rewrite splitlines_from_line, IH.
Qed.

Lemma unlines_app ls1 ls2 : unlines (ls1 ++ ls2) = unlines ls1 +:+ unlines ls2.
Proof.
  induction ls1 as [|l ls1 IH]; simpl; [done|].
  by rewrite IH, !append_assoc.
Qed.

Lemma rstrip_cons c s :
  is_space c = false → rstrip (String c s) = String c (rstrip s).
Proof. intros Hc. simpl. rewrite Hc. by destruct (rstrip s). Qed.

Lemma rstrip_cons_not_blank c s :
  blank s = false → rstrip (String c s) = String c (rstrip s).
Proof. unfold blank. simpl. by destruct (rstrip s). Qed.

Lemma prefix_empty s : String.prefix EmptyString s = true.
Proof. by destruct s. Qed.

Lemma strip_cons c s :
  is_space c = false → strip (String c s) = String c (rstrip s).
Proof. intros Hc. unfold strip. simpl lstrip. rewrite Hc. by apply rstrip_cons. Qed.

Lemma parse_line_descriptions summary winner_name :
  parse_line (summary, winner_name) "Descriptions:" = (EmptyString, winner_name).
Proof. reflexivity. Qed.

Lemma parse_line_dash summary winner_name d :
  blank d = false →
  parse_line (summary, winner_name) ("- " +:+ d) =
    (summary +:+ ("- " +:+ d) +:+ newline, winner_name).
Proof.
  intros Hd. unfold parse_line.
  change ("- " +:+ d) with (String "-" (String " " d)).
  rewrite strip_cons by done.
  rewrite (rstrip_cons_not_blank " ") by done.
  simpl String.prefix. by rewrite prefix_empty.
Qed.

Lemma parse_line_winner summary winner_name w :
  parse_line (summary, winner_name) ("Winner: " +:+ w) = (summary, strip w).
Proof.
  unfold parse_line.
  change ("Winner: " +:+ w) with
    (String "W" (String "i" (String "n" (String "n" (String "e" (String "r"
       (String ":" (String " " w)))))))).
  rewrite strip_cons by done. rewrite !rstrip_cons by done.
  simpl String.prefix. by rewrite prefix_empty.
Qed.

Lemma parse_line_reason summary winner_name r :
  parse_line (summary, winner_name) ("Reason: " +:+ r) =
    (summary +:+ ("Reason: " +:+ r) +:+ newline, winner_name).
Proof.
  unfold parse_line.
  change ("Reason: " +:+ r) with
    (String "R" (String "e" (String "a" (String "s" (String "o" (String "n"
       (String ":" (String " " r)))))))).
  rewrite strip_cons by done. rewrite !rstrip_cons by done.
  simpl String.prefix. by rewrite prefix_empty.
Qed.

Lemma parse_dashes descriptions summary winner_name :
  forallb (fun d => single_line d && negb (blank d)) descriptions = true →
  fold_left parse_line (String.append "- " <$> descriptions)
            (summary, winner_name) =
    (summary +:+ unlines (String.append "- " <$> descriptions), winner_name).
Proof.
  revert summary. induction descriptions as [|d ds IH]; intros summary.
  { intros _. simpl. by rewrite append_nil_r. }
  intros Hall. simpl in Hall.
  apply andb_true_iff in Hall as [[_ Hd%negb_true_iff]%andb_true_iff Hds].
  rewrite fmap_cons. cbn [fold_left foldr unlines].
  rewrite parse_line_dash, IH by done.
  unfold unlines. cbn [foldr]. by rewrite !append_assoc.
Qed.

Lemma single_line_prefixed p s :
  single_line p = true → single_line s = true → single_line (p +:+ s) = true.
Proof.
  unfold single_line. induction p as [|c p IH]; simpl; [done|].
  intros [Hc Hp]%andb_true_iff Hs. rewrite Hc. simpl. by apply IH.
Qed.

Lemma single_line_dashes descriptions :
  forallb (fun d => single_line d && negb (blank d)) descriptions = true →
  forallb single_line (String.append "- " <$> descriptions) = true.
Proof.
  induction descriptions as [|d ds IH]; [done|].
  intros H. simpl in H.
  apply andb_true_iff in H as [[Hd _]%andb_true_iff Hds].
  rewrite fmap_cons. cbn [forallb]. apply andb_true_iff.
  split; [by apply (single_line_prefixed "- ") | by apply IH].
Qed.

(** X24. A reply in the format the prompt asks for is read back: after any
    lines of preamble, a "Descriptions:" line, one "- ..." line per
    description, a "Winner: ..." line and a "Reason: ..." line, the parsed
    winner name is the winner with surrounding white space removed, and the
    summary is the description lines and the reason line, one per line,
    stripped. The preamble does not show in the result. Each part is a
    single line and no description is blank. *)
Theorem reply_round_trip preamble descriptions winner reason :
  forallb single_line preamble = true →
  forallb (fun d => single_line d && negb (blank d)) descriptions = true →
  single_line winner = true →
  single_line reason = true →
  parse_gemini_text (unlines (reply_lines preamble descriptions winner reason)) =
    GeminiResult.mk
      (strip (unlines ((String.append "- " <$> descriptions)
                         ++ ["Reason: " +:+ reason])))
      (strip winner).
Proof.
  intros Hpre Hds Hw Hr. unfold parse_gemini_text.
  rewrite splitlines_unlines.
  - unfold reply_lines. rewrite !fold_left_app.
    destruct (fold_left parse_line preamble (EmptyString, EmptyString))
      as [s0 w0].
    cbn [fold_left]. rewrite parse_line_descriptions.
    rewrite parse_dashes by done.
    rewrite parse_line_winner, parse_line_reason.
    rewrite unlines_app. reflexivity.
  - unfold reply_lines. rewrite !forallb_app. rewrite Hpre. simpl.
    rewrite andb_true_r. apply andb_true_iff. split.
    + by apply single_line_dashes.
    + apply andb_true_iff. split.
      * by apply (single_line_prefixed "Winner: ").
      * by apply (single_line_prefixed "Reason: ").
Qed.

Lemma reply_round_trip_witness :
  parse_gemini_text
    (unlines (reply_lines ["Here is my verdict."]
                          ["Alice: a dog, allegedly"; "Bob: modern art"]
                          "Alice " "it barks")) =
    GeminiResult.mk
      (strip (unlines ((String.append "- "
                          <$> ["Alice: a dog, allegedly"; "Bob: modern art"])
                         ++ ["Reason: " +:+ "it barks"])))
      (strip "Alice ").
Proof.
  apply (reply_round_trip ["Here is my verdict."]
           ["Alice: a dog, allegedly"; "Bob: modern art"] "Alice " "it barks");
    vm_compute; reflexivity.
Defined.





(** *** What the parser keeps *)









(** *** Failed judgments *)

Lemma room_update_named_drawers r r' :
  room_update r r' → named_drawers r → named_drawers r'.
Proof.
  unfold named_drawers.
  destruct 1 as [ p Hact Hlt | pid Hin Hrem | rnd now Hp Hn | rnd now Hp Hn
                | Hp Hn | req Hp Hnin | now g | g ]; intros Hr; simpl;
    try done.
  - by rewrite leave_room_finish_submitted.
  - intros d Hd. by apply elem_of_nil in Hd.
  - intros d Hd. by apply elem_of_nil in Hd.
  - intros d Hd. by apply elem_of_nil in Hd.
  - destruct (submitted_frame r req)
      as (_ & _ & _ & _ & _ & _ & _ & _ & -> & _).
    intros d [Hd| ->%list_elem_of_singleton]%elem_of_app; [auto|].
    unfold drawing_of, str_or. cbn.
    destruct (get_player_name_by_id r _) as [n|]; [|done].
    destruct (String.eqb n EmptyString) eqn:Hn; [done|].
    by apply String.eqb_neq.
  - by destruct (polled_frame r now g)
      as (_ & _ & _ & _ & _ & _ & _ & -> & _).
  - by destruct (run_gemini_judgment_fields r g)
      as (_ & _ & _ & _ & _ & -> & _).
Qed.

(** X28. In every reachable state no submitted drawing has an empty drawer
    name, so a reply of the judge without a winner name never selects a
    drawer: whenever [call_gemini_judge] returns an empty winner name (as it
    does for a failed request, an unreadable body and every other failure),
    [run_gemini_judgment] stores a judgment whose winner id and winner
    name are both empty. *)
Theorem failed_reply_names_no_winner st l room reply :
  reachable st → heap st !! l = Some room →
  GeminiResult.winner_name (call_gemini_judge reply) = EmptyString →
  ∃ j,
    Room.judgment_result (run_gemini_judgment room (call_gemini_judge reply))
      = Some j ∧
    Judgment.winner_id j = EmptyString ∧
    Judgment.winner_name j = EmptyString.
Proof.
  intros Hst Hl Hw.
  assert (named_drawers room) as Hnamed.
  { eapply (heap_invariant_guarded named_drawers);
      [| | | exact Hst | exact Hl].
    - intros c u rd d Hd. by apply elem_of_nil in Hd.
    - apply room_update_named_drawers.
    - by intros r Hr. }
  destruct (winner_is_first_match_aux room (call_gemini_judge reply))
    as (j & Hj & Hempty & Hsome).
  exists j. split; [done|].
  destruct (Room.submitted_drawings room) as [|d0 ds] eqn:Hs.
  { by rewrite (Hempty eq_refl). }
  destruct (Hsome ltac:(done)) as (_ & Hname & Hid). rewrite Hname, Hw.
  split; [|done].
  destruct Hid as [[Hid _]|(before & d & after & Hsplit & Hd & _ & _)]; [done|].
  destruct (Hnamed d).
  - rewrite Hs, Hsplit. apply elem_of_app. right. left.
  - by rewrite Hd.
Qed.

Lemma failed_reply_names_no_winner_witness :
  ∃ room j,
    heap (run init alice_submitted) !! 0%nat = Some room ∧
    Room.judgment_result (run_gemini_judgment room (call_gemini_judge RequestFailed))
      = Some j ∧
    Judgment.winner_id j = EmptyString ∧
    Judgment.winner_name j = EmptyString.
Proof.
  destruct (heap (run init alice_submitted) !! 0%nat) as [room|] eqn:Hroom;
    [|vm_compute in Hroom; discriminate Hroom].
  exists room.
  destruct (failed_reply_names_no_winner (run init alice_submitted) 0 room
              RequestFailed) as (j & H1 & H2 & H3).
  - exists alice_submitted. reflexivity.
  - exact Hroom.
  - reflexivity.
  - exists j. split; [reflexivity|]. split; [exact H1|]. split; assumption.
Defined.
